(** * Rankonfirstpage: the generation gate and its surrounding state machine

    A shallow embedding of the React application of the repository: the
    [App] component of the bundled source (types, constants, the error path
    of the generator service, the output block with its Markdown conversion,
    the PayPal button, the two optimizer forms and the main component) and
    the earlier [App] component of [src/App.tsx], which has no premium state.

    React state is modelled the way the hooks expose it.  A component's
    [useState] cells form a record.  A handler is a closure created by a
    render: what it READS is the snapshot of the cells taken by that render
    (the [snap] argument of each handler below), what it WRITES goes through
    the setters, which act on the live state ([setGenerationCount] is called
    with the updater [prev => prev + 1], so it is modelled with a function on
    the live value).  The application is event driven: React commits the
    updates of one event and renders again before the next event is handled,
    so an event runs the handler created from the committed state
    ([dispatch]). *)

From Stdlib Require Import ZArith NArith List Bool String Ascii Lia Wf_nat.
Import ListNotations.
Local Open Scope Z_scope.

(** ** Types (types.ts) and constants (constants.ts) *)

Inductive Page : Type := home | optimizer | pricing.
Inductive OptimizerTab : Type := product | category.

Definition GENERATION_LIMIT : Z := 20.

(** A JavaScript string is a sequence of UTF-16 code units. *)
Definition JsString : Type := list N.

Definition lit (s : string) : JsString :=
  map (fun a => N_of_ascii a) (list_ascii_of_string s).

(** ** A small state monad for handlers *)

Definition M (S A : Type) : Type := S -> A * S.

Definition ret {S A : Type} (a : A) : M S A := fun s => (a, s).

Definition bind {S A B : Type} (m : M S A) (k : A -> M S B) : M S B :=
  fun s => let (a, s') := m s in k a s'.

Definition modify {S : Type} (f : S -> S) : M S unit := fun s => (tt, f s).

Declare Scope handler_scope.
Delimit Scope handler_scope with handler.
Notation "m ;; k" := (bind m (fun _ => k))
  (at level 61, right associativity) : handler_scope.
Notation "x <- m ;; k" := (bind m (fun x => k))
  (at level 61, m at next level, right associativity) : handler_scope.

(** ** The state of the main component *)

(** The [useState] cells of [App], in declaration order. *)
Record AppState : Type := mkAppState {
  currentPage : Page;
  initialTab : OptimizerTab;
  generationCount : Z;
  showPaywall : bool;
  showCopyMessage : bool;
  isPremium : bool;
  showPaymentSuccessMessage : bool
}.

(** The callbacks handed to [setTimeout], with their delay in milliseconds. *)
Inductive TimerCallback : Type :=
| hidePaymentSuccessMessage
| hideCopyMessage.

(** One call of [console.error]: its arguments.  A value of type [any] that
    is only ever logged is taken by its string rendering. *)
Definition LogEntry : Type := list JsString.

(** Everything a handler of the application can touch: the cells of [App],
    the timers it has scheduled and the console. *)
Record World : Type := mkWorld {
  app : AppState;
  timers : list (TimerCallback * Z);
  console : list LogEntry
}.

Definition initialApp : AppState :=
  {| currentPage := home; initialTab := product; generationCount := 0;
     showPaywall := false; showCopyMessage := false; isPremium := false;
     showPaymentSuccessMessage := false |}.

Definition initialWorld : World :=
  {| app := initialApp; timers := []; console := [] |}.

Module App.

(** *** Setters *)

Definition onApp (f : AppState -> AppState) : M World unit :=
  modify (fun w => {| app := f (app w); timers := timers w; console := console w |}).

Definition setCurrentPage (p : Page) : M World unit :=
  onApp (fun a => {| currentPage := p; initialTab := initialTab a;
    generationCount := generationCount a; showPaywall := showPaywall a;
    showCopyMessage := showCopyMessage a; isPremium := isPremium a;
    showPaymentSuccessMessage := showPaymentSuccessMessage a |}).

Definition setInitialTab (t : OptimizerTab) : M World unit :=
  onApp (fun a => {| currentPage := currentPage a; initialTab := t;
    generationCount := generationCount a; showPaywall := showPaywall a;
    showCopyMessage := showCopyMessage a; isPremium := isPremium a;
    showPaymentSuccessMessage := showPaymentSuccessMessage a |}).

(** The setter is only ever called with an updater function. *)
Definition setGenerationCount (f : Z -> Z) : M World unit :=
  onApp (fun a => {| currentPage := currentPage a; initialTab := initialTab a;
    generationCount := f (generationCount a); showPaywall := showPaywall a;
    showCopyMessage := showCopyMessage a; isPremium := isPremium a;
    showPaymentSuccessMessage := showPaymentSuccessMessage a |}).

Definition setShowPaywall (b : bool) : M World unit :=
  onApp (fun a => {| currentPage := currentPage a; initialTab := initialTab a;
    generationCount := generationCount a; showPaywall := b;
    showCopyMessage := showCopyMessage a; isPremium := isPremium a;
    showPaymentSuccessMessage := showPaymentSuccessMessage a |}).

Definition setShowCopyMessage (b : bool) : M World unit :=
  onApp (fun a => {| currentPage := currentPage a; initialTab := initialTab a;
    generationCount := generationCount a; showPaywall := showPaywall a;
    showCopyMessage := b; isPremium := isPremium a;
    showPaymentSuccessMessage := showPaymentSuccessMessage a |}).

Definition setIsPremium (b : bool) : M World unit :=
  onApp (fun a => {| currentPage := currentPage a; initialTab := initialTab a;
    generationCount := generationCount a; showPaywall := showPaywall a;
    showCopyMessage := showCopyMessage a; isPremium := b;
    showPaymentSuccessMessage := showPaymentSuccessMessage a |}).

Definition setShowPaymentSuccessMessage (b : bool) : M World unit :=
  onApp (fun a => {| currentPage := currentPage a; initialTab := initialTab a;
    generationCount := generationCount a; showPaywall := showPaywall a;
    showCopyMessage := showCopyMessage a; isPremium := isPremium a;
    showPaymentSuccessMessage := b |}).

Definition setTimeout (cb : TimerCallback) (ms : Z) : M World unit :=
  modify (fun w => {| app := app w; timers := timers w ++ [(cb, ms)];
                      console := console w |}).

Definition console_error (args : LogEntry) : M World unit :=
  modify (fun w => {| app := app w; timers := timers w;
                      console := console w ++ [args] |}).

(** *** Handlers *)

Local Open Scope handler_scope.

Definition handleNavigateToOptimizer (tab : OptimizerTab) : M World unit :=
  setInitialTab tab ;;
  setCurrentPage optimizer.

Definition handleNavigateHome : M World unit := setCurrentPage home.

Definition handleNavigateToPricing : M World unit := setCurrentPage pricing.

Definition handlePaymentSuccess : M World unit :=
  setIsPremium true ;;
  setCurrentPage optimizer ;;
  setShowPaymentSuccessMessage true ;;
  setTimeout hidePaymentSuccessMessage 3000.

(** [snap] is the render whose closure this is: [isPremium] and
    [generationCount] are read from it. *)
Definition handleGenerationAttempt (snap : AppState) : M World bool :=
  if isPremium snap then ret true
  else if generationCount snap >=? GENERATION_LIMIT then
    setShowPaywall true ;;
    ret false
  else
    setGenerationCount (fun prev => prev + 1) ;;
    ret true.

Definition handleCopyToClipboard : M World unit :=
  setShowCopyMessage true ;;
  setTimeout hideCopyMessage 2000.

(** The two props of [PaywallModal]. *)
Definition paywallOnClose : M World unit := setShowPaywall false.

Definition paywallOnUpgrade : M World unit :=
  setShowPaywall false ;;
  handleNavigateToPricing.

(** What a timer does when it fires. *)
Definition runTimer (cb : TimerCallback) : M World unit :=
  match cb with
  | hidePaymentSuccessMessage => setShowPaymentSuccessMessage false
  | hideCopyMessage => setShowCopyMessage false
  end.

End App.

(** An event runs the handler made by the render of the committed state. *)
Definition dispatch {A : Type} (h : AppState -> M World A) : M World A :=
  fun w => h (app w) w.

(** The operations of the specification, under the names it gives them. *)
Definition attemptGeneration : M World bool := dispatch App.handleGenerationAttempt.
Definition onPaymentSuccess : M World unit := App.handlePaymentSuccess.

(** [n] generation attempts, one event each, with the results in call order. *)
Fixpoint attempts (n : nat) : M World (list bool) :=
  match n with
  | O => ret []
  | S k => (bs <- attempts k ;; b <- attemptGeneration ;; ret (bs ++ [b]))%handler
  end.

(** ** JavaScript strings: truthiness, [trim], [split], [join] *)

Module Js.

Local Open Scope N_scope.

(** The empty string is the only falsy string. *)
Definition truthy (s : JsString) : bool :=
  match s with [] => false | _ :: _ => true end.

(** WhiteSpace and LineTerminator of ECMAScript, which [trim] strips: TAB, LF,
    VT, FF, CR, SP, NBSP, U+1680, U+2000..U+200A, LS, PS, U+202F, U+205F,
    U+3000 and U+FEFF. *)
Definition isWhiteSpace (c : N) : bool :=
  (9 <=? c) && (c <=? 13) || (c =? 32) || (c =? 160) || (c =? 5760)
  || (8192 <=? c) && (c <=? 8202) || (c =? 8232) || (c =? 8233)
  || (c =? 8239) || (c =? 8287) || (c =? 12288) || (c =? 65279).

Fixpoint trimStart (s : JsString) : JsString :=
  match s with
  | [] => []
  | c :: t => if isWhiteSpace c then trimStart t else s
  end.

Definition trimEnd (s : JsString) : JsString := rev (trimStart (rev s)).

Definition trim (s : JsString) : JsString := trimEnd (trimStart s).

(** [s.split('\n')]: never empty, one piece more than there are line feeds. *)
Fixpoint split_lf (s : JsString) : list JsString :=
  match s with
  | [] => [[]]
  | c :: t =>
      if c =? 10 then [] :: split_lf t
      else match split_lf t with
           | [] => [[c]]
           | piece :: rest => (c :: piece) :: rest
           end
  end.

Fixpoint join (sep : JsString) (l : list JsString) : JsString :=
  match l with
  | [] => []
  | [x] => x
  | x :: rest => x ++ sep ++ join sep rest
  end.

(** [a || b] on strings, and [x?.trim()] on a possibly undefined element. *)
Definition orElse (a : option JsString) (b : JsString) : JsString :=
  match a with
  | Some s => if truthy s then s else b
  | None => b
  end.

Definition optTrim (a : option JsString) : option JsString := option_map trim a.

(** The required-field test of the forms. *)
Definition blank (s : JsString) : bool := negb (truthy (trim s)).

End Js.

(** A string made of white space only (the empty one included). *)
Definition whitespaceOnly (s : JsString) : Prop :=
  Forall (fun c => Js.isWhiteSpace c = true) s.

(** ** The content generator boundary *)

Record Faq : Type := mkFaq { question : JsString; answer : JsString }.

Module ProductContent.
Record t : Type := mk {
  url : JsString;
  title : JsString;
  metaDescription : JsString;
  productDescription : JsString;
  faqs : list Faq
}.
End ProductContent.

Module CategoryContent.
Record t : Type := mk {
  title : JsString;
  content : JsString;
  url : JsString;
  metaDescription : JsString;
  faqs : list Faq
}.
End CategoryContent.

(** How an awaited promise settles. *)
Inductive Settled (A : Type) : Type :=
| Fulfilled (value : A)
| Rejected (err : JsString).
Arguments Fulfilled {A} value.
Arguments Rejected {A} err.

(** Where an [async] handler stands when its synchronous part is over: it has
    returned, or it awaits the generator called with these arguments. *)
Inductive Pending (Req : Type) : Type :=
| Returned
| Awaiting (request : Req).
Arguments Returned {Req}.
Arguments Awaiting {Req} request.

(** A child component's handler runs on its own cells and, through the props
    it was given, on the world of [App]. *)
Definition inWorld {C A : Type} (m : M World A) : M (C * World) A :=
  fun cw => let (a, w') := m (snd cw) in (a, (fst cw, w')).

Definition inCells {C : Type} (f : C -> C) : M (C * World) unit :=
  modify (fun cw => (f (fst cw), snd cw)).


(** ** The product form *)

Module ProductOptimizer.

Record State : Type := mkState {
  productName : JsString;
  keywords : JsString;
  price : JsString;
  isLoading : bool;
  error : option JsString;
  content : option ProductContent.t
}.

Definition initial : State :=
  {| productName := []; keywords := []; price := []; isLoading := false;
     error := None; content := None |}.

Definition Cells : Type := (State * World)%type.

Definition setIsLoading (b : bool) : M Cells unit :=
  inCells (fun s => {| productName := productName s; keywords := keywords s;
    price := price s; isLoading := b; error := error s; content := content s |}).

Definition setError (e : option JsString) : M Cells unit :=
  inCells (fun s => {| productName := productName s; keywords := keywords s;
    price := price s; isLoading := isLoading s; error := e; content := content s |}).

Definition setContent (c : option ProductContent.t) : M Cells unit :=
  inCells (fun s => {| productName := productName s; keywords := keywords s;
    price := price s; isLoading := isLoading s; error := error s; content := c |}).

(** The arguments of [generateProductContent]. *)
Definition Request : Type := (JsString * JsString * JsString)%type.

Local Open Scope handler_scope.

(** [handleSubmit] up to its [await].  [e.preventDefault()] acts on the DOM
    event only. *)
Definition handleSubmit (onGenerationAttempt : M World bool) (snap : State)
  : M Cells (Pending Request) :=
  if Js.blank (productName snap) || Js.blank (keywords snap) then
    setError (Some (lit "Please fill out both product name and keywords.")) ;;
    ret Returned
  else
    permitted <- inWorld onGenerationAttempt ;;
    if negb permitted then ret Returned
    else
      setIsLoading true ;;
      setError None ;;
      setContent None ;;
      ret (Awaiting (productName snap, keywords snap, price snap)).

(** [handleSubmit] from the point where the awaited call settles: the
    [try], [catch] and [finally] blocks. *)
Definition handleSubmit_settled (r : Settled ProductContent.t) : M Cells unit :=
  match r with
  | Fulfilled result => setContent (Some result)
  | Rejected err =>
      setError (Some (lit "Failed to generate content. Please try again.")) ;;
      inWorld (App.console_error [err])
  end ;;
  setIsLoading false.

End ProductOptimizer.

(** ** The category form *)

Module CategoryOptimizer.

Record State : Type := mkState {
  categoryKeywords : JsString;
  productNames : JsString;
  productPrices : JsString;
  productLinks : JsString;
  isLoading : bool;
  error : option JsString;
  content : option CategoryContent.t
}.

Definition initial : State :=
  {| categoryKeywords := []; productNames := []; productPrices := [];
     productLinks := []; isLoading := false; error := None; content := None |}.

Definition Cells : Type := (State * World)%type.

Definition setIsLoading (b : bool) : M Cells unit :=
  inCells (fun s => {| categoryKeywords := categoryKeywords s;
    productNames := productNames s; productPrices := productPrices s;
    productLinks := productLinks s; isLoading := b; error := error s;
    content := content s |}).

Definition setError (e : option JsString) : M Cells unit :=
  inCells (fun s => {| categoryKeywords := categoryKeywords s;
    productNames := productNames s; productPrices := productPrices s;
    productLinks := productLinks s; isLoading := isLoading s; error := e;
    content := content s |}).

Definition setContent (c : option CategoryContent.t) : M Cells unit :=
  inCells (fun s => {| categoryKeywords := categoryKeywords s;
    productNames := productNames s; productPrices := productPrices s;
    productLinks := productLinks s; isLoading := isLoading s; error := error s;
    content := c |}).

(** The arguments of [generateCategoryContent]. *)
Definition Request : Type := (JsString * JsString)%type.

(** One line of the product list, for the name at position [index]. *)
Definition detailLine (prices links : list JsString) (index : nat) (name : JsString)
  : JsString :=
  lit "- " ++ Js.trim name
  ++ lit " (Price: " ++ Js.orElse (Js.optTrim (nth_error prices index)) (lit "N/A")
  ++ lit ", Link: " ++ Js.orElse (Js.optTrim (nth_error links index)) (lit "#")
  ++ lit ")".

Fixpoint mapi {A B : Type} (f : nat -> A -> B) (index : nat) (l : list A) : list B :=
  match l with
  | [] => []
  | x :: rest => f index x :: mapi f (S index) rest
  end.

Definition productDetails (snap : State) : JsString :=
  let names := Js.split_lf (productNames snap) in
  let prices := Js.split_lf (productPrices snap) in
  let links := Js.split_lf (productLinks snap) in
  Js.join [10%N] (mapi (detailLine prices links) 0 names).

Local Open Scope handler_scope.

Definition handleSubmit (onGenerationAttempt : M World bool) (snap : State)
  : M Cells (Pending Request) :=
  if Js.blank (categoryKeywords snap) || Js.blank (productNames snap) then
    setError (Some (lit "Please fill out category keywords and at least one product name.")) ;;
    ret Returned
  else
    permitted <- inWorld onGenerationAttempt ;;
    if negb permitted then ret Returned
    else
      setIsLoading true ;;
      setError None ;;
      setContent None ;;
      ret (Awaiting (categoryKeywords snap, productDetails snap)).

Definition handleSubmit_settled (r : Settled CategoryContent.t) : M Cells unit :=
  match r with
  | Fulfilled result => setContent (Some result)
  | Rejected err =>
      setError (Some (lit "Failed to generate content. Please try again.")) ;;
      inWorld (App.console_error [err])
  end ;;
  setIsLoading false.

End CategoryOptimizer.

(** ** The PayPal button *)

Module PayPalButton.

Local Open Scope handler_scope.

(** [onApprove]: the capture of the order is awaited first; when it rejects,
    so does the callback, and [onSuccess] is not reached. *)
Definition onApprove (onSuccess : M World unit) (capture : Settled unit)
  : M World (Settled unit) :=
  match capture with
  | Fulfilled _ => onSuccess ;; ret (Fulfilled tt)
  | Rejected err => ret (Rejected err)
  end.

Definition onError (err : JsString) : M World unit :=
  App.console_error [lit "PayPal SDK Error:"; err].

End PayPalButton.

(** The Payment Processor's two outcomes, as [PricingPage] wires them to
    the application. *)
Definition paymentApproved (capture : Settled unit) : M World (Settled unit) :=
  PayPalButton.onApprove onPaymentSuccess capture.

Definition paymentFailure (err : JsString) : M World unit :=
  PayPalButton.onError err.

(** ** The component of src/App.tsx *)

Module AppTsx.

(** Its five [useState] cells: there is no premium flag and no payment
    message. *)
Record AppState : Type := mkAppState {
  currentPage : Page;
  initialTab : OptimizerTab;
  generationCount : Z;
  showPaywall : bool;
  showCopyMessage : bool
}.

(** Its only timer callback hides the copy message: a pending timer is its
    delay. *)
Record World : Type := mkWorld {
  app : AppState;
  timers : list Z
}.

Definition initialWorld : World :=
  {| app := {| currentPage := home; initialTab := product; generationCount := 0;
               showPaywall := false; showCopyMessage := false |};
     timers := [] |}.

Definition onApp (f : AppState -> AppState) : M World unit :=
  modify (fun w => {| app := f (app w); timers := timers w |}).

Definition setCurrentPage (p : Page) : M World unit :=
  onApp (fun a => {| currentPage := p; initialTab := initialTab a;
    generationCount := generationCount a; showPaywall := showPaywall a;
    showCopyMessage := showCopyMessage a |}).

Definition setInitialTab (t : OptimizerTab) : M World unit :=
  onApp (fun a => {| currentPage := currentPage a; initialTab := t;
    generationCount := generationCount a; showPaywall := showPaywall a;
    showCopyMessage := showCopyMessage a |}).

Definition setGenerationCount (f : Z -> Z) : M World unit :=
  onApp (fun a => {| currentPage := currentPage a; initialTab := initialTab a;
    generationCount := f (generationCount a); showPaywall := showPaywall a;
    showCopyMessage := showCopyMessage a |}).

Definition setShowPaywall (b : bool) : M World unit :=
  onApp (fun a => {| currentPage := currentPage a; initialTab := initialTab a;
    generationCount := generationCount a; showPaywall := b;
    showCopyMessage := showCopyMessage a |}).

Definition setShowCopyMessage (b : bool) : M World unit :=
  onApp (fun a => {| currentPage := currentPage a; initialTab := initialTab a;
    generationCount := generationCount a; showPaywall := showPaywall a;
    showCopyMessage := b |}).

Definition setTimeout (ms : Z) : M World unit :=
  modify (fun w => {| app := app w; timers := timers w ++ [ms] |}).

Local Open Scope handler_scope.

Definition handleNavigateToOptimizer (tab : OptimizerTab) : M World unit :=
  setInitialTab tab ;;
  setCurrentPage optimizer.

Definition handleNavigateHome : M World unit := setCurrentPage home.

Definition handleGenerationAttempt (snap : AppState) : M World bool :=
  if generationCount snap >=? GENERATION_LIMIT then
    setShowPaywall true ;;
    ret false
  else
    setGenerationCount (fun prev => prev + 1) ;;
    ret true.

Definition handleCopyToClipboard : M World unit :=
  setShowCopyMessage true ;;
  setTimeout 2000.

Definition paywallOnClose : M World unit := setShowPaywall false.

Definition attemptGeneration : M World bool :=
  fun w => handleGenerationAttempt (app w) w.

End AppTsx.

(** What is left of the full application's state in the component of
    src/App.tsx: the five cells they share, and the copy-message timers. *)
Definition forget (w : World) : AppTsx.World :=
  {| AppTsx.app :=
       {| AppTsx.currentPage := currentPage (app w);
          AppTsx.initialTab := initialTab (app w);
          AppTsx.generationCount := generationCount (app w);
          AppTsx.showPaywall := showPaywall (app w);
          AppTsx.showCopyMessage := showCopyMessage (app w) |};
     AppTsx.timers :=
       flat_map (fun t => match fst t with
                          | hideCopyMessage => [snd t]
                          | hidePaymentSuccessMessage => []
                          end) (timers w) |}.

(** ** Events of a session *)

(** Everything that can run a handler of the application: clicks, form
    submissions (with the cells of the form at that time), the settling of a
    generator call, the two outcomes of the Payment Processor, and timers. *)
Inductive Event : Type :=
| LogoClick
| GoPremium
| Optimize (tab : OptimizerTab)
| SubmitProduct (form : ProductOptimizer.State)
| SubmitCategory (form : CategoryOptimizer.State)
| ProductSettled (form : ProductOptimizer.State) (r : Settled ProductContent.t)
| CategorySettled (form : CategoryOptimizer.State) (r : Settled CategoryContent.t)
| GenerationAttempt
| Copy
| PaywallClose
| PaywallUpgrade
| PaymentApproved (capture : Settled unit)
| PaymentError (err : JsString)
| TimerFires (index : nat).

(** The pending timer at [index] fires and is gone; nothing happens when
    there is none. *)
Definition fireTimer (index : nat) : M World unit :=
  fun w =>
    match nth_error (timers w) index with
    | None => (tt, w)
    | Some (cb, _) =>
        App.runTimer cb
          {| app := app w;
             timers := firstn index (timers w) ++ skipn (S index) (timers w);
             console := console w |}
    end.

Definition step (e : Event) (w : World) : World :=
  match e with
  | LogoClick => snd (App.handleNavigateHome w)
  | GoPremium => snd (App.handleNavigateToPricing w)
  | Optimize tab => snd (App.handleNavigateToOptimizer tab w)
  | SubmitProduct form =>
      snd (snd (ProductOptimizer.handleSubmit attemptGeneration form (form, w)))
  | SubmitCategory form =>
      snd (snd (CategoryOptimizer.handleSubmit attemptGeneration form (form, w)))
  | ProductSettled form r =>
      snd (snd (ProductOptimizer.handleSubmit_settled r (form, w)))
  | CategorySettled form r =>
      snd (snd (CategoryOptimizer.handleSubmit_settled r (form, w)))
  | GenerationAttempt => snd (attemptGeneration w)
  | Copy => snd (App.handleCopyToClipboard w)
  | PaywallClose => snd (App.paywallOnClose w)
  | PaywallUpgrade => snd (App.paywallOnUpgrade w)
  | PaymentApproved capture => snd (paymentApproved capture w)
  | PaymentError err => snd (paymentFailure err w)
  | TimerFires index => snd (fireTimer index w)
  end.

Definition run (events : list Event) (w : World) : World :=
  fold_left (fun w e => step e w) events w.

(** ** Concrete sessions *)

(** A free user on the optimizer page who has used up the 20 generations. *)
Definition exhausted : World :=
  run (Optimize product :: repeat GenerationAttempt 20) initialWorld.

(** The same user after paying. *)
Definition exhaustedThenPaid : World :=
  run [PaywallUpgrade; PaymentApproved (Fulfilled tt)]
      (snd (attemptGeneration exhausted)).

(** A user who pays after five generations. *)
Definition paidAfterFive : World :=
  run (Optimize product :: repeat GenerationAttempt 5
       ++ [GoPremium; PaymentApproved (Fulfilled tt)]) initialWorld.

(** A product form whose keywords are two spaces and a tab. *)
Definition blankKeywordsForm : ProductOptimizer.State :=
  {| ProductOptimizer.productName := lit "Green Tea";
     ProductOptimizer.keywords := [32; 32; 9]%N;
     ProductOptimizer.price := lit "$12.99";
     ProductOptimizer.isLoading := false;
     ProductOptimizer.error := None;
     ProductOptimizer.content := None |}.

(** A category form with keywords and no product name. *)
Definition noNamesForm : CategoryOptimizer.State :=
  {| CategoryOptimizer.categoryKeywords := lit "herbal tea";
     CategoryOptimizer.productNames := [];
     CategoryOptimizer.productPrices := lit "$9.50";
     CategoryOptimizer.productLinks := [];
     CategoryOptimizer.isLoading := false;
     CategoryOptimizer.error := None;
     CategoryOptimizer.content := None |}.

(** A gate that leaves a mark in the console each time it is consulted. *)
Definition markingGate : M World bool :=
  (App.console_error [lit "gate consulted"] ;; attemptGeneration)%handler.

(** ** Sessions, event by event *)

(** The events that run the gate: a direct attempt, and a submission whose
    required fields pass the validation of its form. *)
Definition consultsGate (e : Event) : bool :=
  match e with
  | GenerationAttempt => true
  | SubmitProduct form =>
      negb (Js.blank (ProductOptimizer.productName form)
            || Js.blank (ProductOptimizer.keywords form))
  | SubmitCategory form =>
      negb (Js.blank (CategoryOptimizer.categoryKeywords form)
            || Js.blank (CategoryOptimizer.productNames form))
  | _ => false
  end.

(** The events that reach [handlePaymentSuccess]. *)
Definition approves (e : Event) : bool :=
  match e with
  | PaymentApproved (Fulfilled _) => true
  | _ => false
  end.

Fixpoint countIf {A : Type} (p : A -> bool) (l : list A) : nat :=
  match l with
  | [] => O
  | x :: rest => if p x then S (countIf p rest) else countIf p rest
  end.

(** ** The generator service *)

Module GeminiService.

Local Open Scope handler_scope.

(** [generateProductContent] and [generateCategoryContent] from the point
    where the [try] block has run.  [body] is how it went: the request to the
    model and the parsing of its answer gave a content, or one of them threw.
    The prompt only goes to the model.  An [Error] is taken by its message. *)
Definition generateProductContent (body : Settled ProductContent.t)
  : M World (Settled ProductContent.t) :=
  match body with
  | Fulfilled content => ret (Fulfilled content)
  | Rejected error =>
      App.console_error [lit "Error generating product content:"; error] ;;
      ret (Rejected (lit "Failed to generate product content from Gemini API."))
  end.

Definition generateCategoryContent (body : Settled CategoryContent.t)
  : M World (Settled CategoryContent.t) :=
  match body with
  | Fulfilled content => ret (Fulfilled content)
  | Rejected error =>
      App.console_error [lit "Error generating category content:"; error] ;;
      ret (Rejected (lit "Failed to generate category content from Gemini API."))
  end.

End GeminiService.

(** The product form through a whole generation: the submission, then, when
    the submission got that far, the call of the service and the rest of the
    handler once the call has settled. *)
Definition productCycle (form : ProductOptimizer.State)
    (body : Settled ProductContent.t) : M ProductOptimizer.Cells bool :=
  (p <- ProductOptimizer.handleSubmit attemptGeneration form ;;
   match p with
   | Returned => ret false
   | Awaiting _ =>
       r <- inWorld (GeminiService.generateProductContent body) ;;
       ProductOptimizer.handleSubmit_settled r ;;
       ret true
   end)%handler.

Definition categoryCycle (form : CategoryOptimizer.State)
    (body : Settled CategoryContent.t) : M CategoryOptimizer.Cells bool :=
  (p <- CategoryOptimizer.handleSubmit attemptGeneration form ;;
   match p with
   | Returned => ret false
   | Awaiting _ =>
       r <- inWorld (GeminiService.generateCategoryContent body) ;;
       CategoryOptimizer.handleSubmit_settled r ;;
       ret true
   end)%handler.

(** The two flags, each with the timer that will take it down. *)
Definition messagesCovered (w : World) : Prop :=
  (showPaymentSuccessMessage (app w) = true ->
   In (hidePaymentSuccessMessage, 3000) (timers w))
  /\ (showCopyMessage (app w) = true -> In (hideCopyMessage, 2000) (timers w)).

(** ** Sessions of the component of src/App.tsx *)

Module AppTsxSession.

(** What can run a handler of that component: the logo, the two buttons of
    the home page, the gate (called by the optimizer page), a copy, the close
    button of the paywall modal, and a copy-message timer. *)
Inductive Event : Type :=
| LogoClick
| Optimize (tab : OptimizerTab)
| GenerationAttempt
| Copy
| PaywallClose
| TimerFires (index : nat).

Definition fireTimer (index : nat) : M AppTsx.World unit :=
  fun w =>
    match nth_error (AppTsx.timers w) index with
    | None => (tt, w)
    | Some _ =>
        AppTsx.setShowCopyMessage false
          {| AppTsx.app := AppTsx.app w;
             AppTsx.timers := firstn index (AppTsx.timers w)
                              ++ skipn (S index) (AppTsx.timers w) |}
    end.

Definition step (e : Event) (w : AppTsx.World) : AppTsx.World :=
  match e with
  | LogoClick => snd (AppTsx.handleNavigateHome w)
  | Optimize tab => snd (AppTsx.handleNavigateToOptimizer tab w)
  | GenerationAttempt => snd (AppTsx.attemptGeneration w)
  | Copy => snd (AppTsx.handleCopyToClipboard w)
  | PaywallClose => snd (AppTsx.paywallOnClose w)
  | TimerFires index => snd (fireTimer index w)
  end.

Definition run (events : list Event) (w : AppTsx.World) : AppTsx.World :=
  fold_left (fun w e => step e w) events w.

End AppTsxSession.

(** The same event in the full application. *)
Definition inFullApp (e : AppTsxSession.Event) : Event :=
  match e with
  | AppTsxSession.LogoClick => LogoClick
  | AppTsxSession.Optimize tab => Optimize tab
  | AppTsxSession.GenerationAttempt => GenerationAttempt
  | AppTsxSession.Copy => Copy
  | AppTsxSession.PaywallClose => PaywallClose
  | AppTsxSession.TimerFires index => TimerFires index
  end.

(** ** Output blocks *)

(** [formatFaqs], the same function in both forms. *)
Definition formatFaq (faq : Faq) : JsString :=
  lit "Q: " ++ question faq ++ [10%N] ++ lit "A: " ++ answer faq.

Definition formatFaqs (faqs : list Faq) : JsString :=
  Js.join [10; 10]%N (map formatFaq faqs).

Module OutputBlock.

Local Open Scope N_scope.

(** LineTerminator of ECMAScript: LF, CR, LS, PS.  In a regular expression
    the dot matches every code unit but these, and with the [m] flag a line
    starts after each of them and ends before each of them. *)
Definition isLineTerminator (c : N) : bool :=
  (c =? 10) || (c =? 13) || (c =? 8232) || (c =? 8233).

(** A text as its lines: the first line, then every line terminator with the
    line that follows it. *)
Fixpoint splitLines (s : JsString) : JsString * list (N * JsString) :=
  match s with
  | [] => ([], [])
  | c :: t =>
      let (line, rest) := splitLines t in
      if isLineTerminator c then ([], (c, line) :: rest) else (c :: line, rest)
  end.

Definition joinLines (ls : JsString * list (N * JsString)) : JsString :=
  fst ls ++ flat_map (fun p => fst p :: snd p) (snd ls).

Fixpoint startsWith (prefix s : JsString) : bool :=
  match prefix, s with
  | [], _ => true
  | p :: prefix', c :: s' => (p =? c) && startsWith prefix' s'
  | _ :: _, [] => false
  end.

(** One line under [replace(/^PREFIX(.*$)/gim, OPENER + '$1' + CLOSER)]: a
    line that starts with the prefix is matched whole, up to its end. *)
Definition replaceHeading (prefix opener closer line : JsString) : JsString :=
  if startsWith prefix line
  then opener ++ skipn (List.length prefix) line ++ closer
  else line.

(** The replacement on a text: every line on its own, terminators kept. *)
Definition replaceHeadings (prefix opener closer s : JsString) : JsString :=
  let ls := splitLines s in
  joinLines (replaceHeading prefix opener closer (fst ls),
             map (fun p => (fst p, replaceHeading prefix opener closer (snd p)))
                 (snd ls)).

Definition h2Open : JsString :=
  lit "<h2 class=" ++ [34] ++ lit "text-xl font-bold mt-4 mb-2" ++ [34] ++ lit ">".
Definition h2Close : JsString := lit "</h2>".
Definition h3Open : JsString :=
  lit "<h3 class=" ++ [34] ++ lit "text-lg font-bold mt-3 mb-1" ++ [34] ++ lit ">".
Definition h3Close : JsString := lit "</h3>".
Definition strongOpen : JsString := lit "<strong>".
Definition strongClose : JsString := lit "</strong>".

(** [replace(/\*\*(.*?)\*\*/g, '<strong>$1</strong>')], scanning from the
    left.  [pending] is [None] outside a match; after an opening pair of
    asterisks it holds the text read since.  The lazy group stops at the
    first closing pair; it cannot cross a line terminator, and when the line
    ends first there is no pair left on that line, so the opening pair and
    the text are kept as they are. *)
Fixpoint replaceBold (pending : option JsString) (s : JsString) : JsString :=
  match s with
  | [] =>
      match pending with
      | None => []
      | Some inner => [42; 42] ++ inner
      end
  | c :: t =>
      match pending with
      | None =>
          match t with
          | c2 :: t2 =>
              if (c =? 42) && (c2 =? 42) then replaceBold (Some []) t2
              else c :: replaceBold None t
          | [] => c :: replaceBold None t
          end
      | Some inner =>
          match t with
          | c2 :: t2 =>
              if (c =? 42) && (c2 =? 42)
              then strongOpen ++ inner ++ strongClose ++ replaceBold None t2
              else if isLineTerminator c
                   then [42; 42] ++ inner ++ c :: replaceBold None t
                   else replaceBold (Some (inner ++ [c])) t
          | [] =>
              if isLineTerminator c
              then [42; 42] ++ inner ++ c :: replaceBold None t
              else replaceBold (Some (inner ++ [c])) t
          end
      end
  end.

(** [replace(/\n/g, '<br />')]. *)
Fixpoint replaceLineFeeds (s : JsString) : JsString :=
  match s with
  | [] => []
  | c :: t =>
      if c =? 10 then lit "<br />" ++ replaceLineFeeds t
      else c :: replaceLineFeeds t
  end.

Definition simpleMarkdownToHtml (markdown : JsString) : JsString :=
  replaceLineFeeds
    (replaceBold None
       (replaceHeadings (lit "### ") h3Open h3Close
          (replaceHeadings (lit "## ") h2Open h2Close markdown))).

End OutputBlock.

(** A text free of the characters the conversion reacts to. *)
Definition plainText (s : JsString) : Prop :=
  Forall (fun c => c <> 10%N /\ c <> 35%N /\ c <> 42%N) s.

(** A text that stays on its line and has no asterisk. *)
Definition plainLine (s : JsString) : Prop :=
  Forall (fun c => OutputBlock.isLineTerminator c = false /\ c <> 42%N) s.

(** The worlds of the full application in which premium is off and only
    copy-message timers are pending: those a session reaches with the events
    that src/App.tsx has too. *)
Definition freeWorld (w : World) : Prop :=
  isPremium (app w) = false
  /\ Forall (fun t => fst t = hideCopyMessage) (timers w).

(** Whether a pair of asterisks starts at [c], the character before [t]. *)
Definition asteriskPair (c : N) (t : JsString) : bool :=
  match t with
  | c2 :: _ => ((c =? 42) && (c2 =? 42))%N
  | [] => false
  end.

(** ** More concrete inputs *)

Definition filledProductForm : ProductOptimizer.State :=
  {| ProductOptimizer.productName := lit "Green Tea";
     ProductOptimizer.keywords := lit "organic, vegan";
     ProductOptimizer.price := [];
     ProductOptimizer.isLoading := false;
     ProductOptimizer.error := None;
     ProductOptimizer.content := None |}.

(** Three names, the second line blank, and neither prices nor links. *)
Definition filledCategoryForm : CategoryOptimizer.State :=
  {| CategoryOptimizer.categoryKeywords := lit "herbal tea";
     CategoryOptimizer.productNames :=
       (lit "Chamomile " ++ [10; 10] ++ lit "Mint")%N;
     CategoryOptimizer.productPrices := [];
     CategoryOptimizer.productLinks := [32; 10]%N;
     CategoryOptimizer.isLoading := false;
     CategoryOptimizer.error := None;
     CategoryOptimizer.content := None |}.

(** Proves [plainLine] of a literal, character by character. *)
Ltac plain_literal :=
  repeat (constructor; [split; [reflexivity | discriminate]|]); constructor.

(** * Properties *)

(** ** The gate, one call at a time *)

Lemma attempt_premium (w : World) :
  isPremium (app w) = true -> attemptGeneration w = (true, w).
Proof.
  intros Hp. unfold attemptGeneration, dispatch, App.handleGenerationAttempt.
  now rewrite Hp.
Qed.

Lemma attempt_free_below (w : World) :
  isPremium (app w) = false -> generationCount (app w) < GENERATION_LIMIT ->
  attemptGeneration w =
    (true, snd (App.setGenerationCount (fun prev => prev + 1) w)).
Proof.
  intros Hp Hc. unfold attemptGeneration, dispatch, App.handleGenerationAttempt.
  rewrite Hp. destruct (Z.geb_spec (generationCount (app w)) GENERATION_LIMIT); [lia|].
  reflexivity.
Qed.

Lemma attempt_free_blocked (w : World) :
  isPremium (app w) = false -> GENERATION_LIMIT <= generationCount (app w) ->
  attemptGeneration w = (false, snd (App.setShowPaywall true w)).
Proof.
  intros Hp Hc. unfold attemptGeneration, dispatch, App.handleGenerationAttempt.
  rewrite Hp. destruct (Z.geb_spec (generationCount (app w)) GENERATION_LIMIT); [|lia].
  reflexivity.
Qed.

(** The three cases of the gate, for case analysis in later proofs. *)
Lemma attempt_cases (w : World) :
  (isPremium (app w) = true /\ attemptGeneration w = (true, w))
  \/ (isPremium (app w) = false /\ generationCount (app w) < GENERATION_LIMIT
      /\ attemptGeneration w =
           (true, snd (App.setGenerationCount (fun prev => prev + 1) w)))
  \/ (isPremium (app w) = false /\ GENERATION_LIMIT <= generationCount (app w)
      /\ attemptGeneration w = (false, snd (App.setShowPaywall true w))).
Proof.
  destruct (isPremium (app w)) eqn:Hp.
  - left. split; [reflexivity | now apply attempt_premium].
  - destruct (Z.lt_ge_cases (generationCount (app w)) GENERATION_LIMIT) as [Hc | Hc].
    + right; left. repeat split; trivial. now apply attempt_free_below.
    + right; right. repeat split; trivial. now apply attempt_free_blocked.
Qed.

(** C1. For every state, the gate returns true exactly when the user is
    premium or the usage counter is strictly below the limit of 20. *)
Theorem attemptGeneration_permitted_iff (w : World) :
  fst (attemptGeneration w) = true <->
  (isPremium (app w) = true \/ generationCount (app w) < 20).
Proof.
  change 20 with GENERATION_LIMIT.
  destruct (attempt_cases w) as [[Hp E] | [[Hp [Hc E]] | [Hp [Hc E]]]];
    rewrite E; cbn [fst]; split; auto.
  - discriminate.
  - intros [Hq | Hq]; [congruence | lia].
Qed.

(** ** Sequences of calls *)

Lemma attempts_S (k : nat) (w : World) :
  attempts (S k) w =
    (fst (attempts k w) ++ [fst (attemptGeneration (snd (attempts k w)))],
     snd (attemptGeneration (snd (attempts k w)))).
Proof.
  cbn [attempts]. unfold bind, ret.
  destruct (attempts k w) as [bs w1]. cbn [fst snd].
  now destruct (attemptGeneration w1).
Qed.

(** While the free allowance lasts, every call is permitted and the counter
    counts the calls; premium stays off and the other cells stay as they were. *)
Lemma attempts_free (n : nat) (w : World) :
  isPremium (app w) = false ->
  generationCount (app w) + Z.of_nat n <= GENERATION_LIMIT ->
  fst (attempts n w) = repeat true n
  /\ isPremium (app (snd (attempts n w))) = false
  /\ generationCount (app (snd (attempts n w))) = generationCount (app w) + Z.of_nat n.
Proof.
  intros Hp. induction n as [|k IH]; intros Hc.
  - cbn. repeat split; trivial. lia.
  - destruct IH as (Hb & Hp' & Hc'); [lia|].
    rewrite attempts_S. cbn [fst snd].
    rewrite (attempt_free_below (snd (attempts k w))) by (trivial; lia).
    cbn [fst snd]. rewrite Hb. repeat split.
    + symmetry. apply (repeat_cons k true).
    + exact Hp'.
    + cbn. rewrite Hc'. lia.
Qed.

(** C2. A free user whose counter is at the limit of 20 is refused and the
    counter stays at 20; in a fresh session, after 20 permitted calls, the
    21st call is refused. *)
Theorem attemptGeneration_refused_at_limit :
  (forall w : World,
     isPremium (app w) = false -> generationCount (app w) = 20 ->
     fst (attemptGeneration w) = false
     /\ generationCount (app (snd (attemptGeneration w))) = 20)
  /\ fst (attempts 20 initialWorld) = repeat true 20
  /\ fst (attempts 21 initialWorld) = repeat true 20 ++ [false]
  /\ generationCount (app (snd (attempts 21 initialWorld))) = 20.
Proof.
  split.
  - intros w Hp Hc.
    rewrite (attempt_free_blocked w Hp) by (unfold GENERATION_LIMIT; lia).
    cbn. auto.
  - repeat split; reflexivity.
Qed.

Lemma attemptGeneration_refused_at_limit_witness :
  fst (attemptGeneration exhausted) = false
  /\ generationCount (app (snd (attemptGeneration exhausted))) = 20.
Proof.
  apply (proj1 attemptGeneration_refused_at_limit exhausted); reflexivity.
Defined.

(** C3. From a counter of 0 without premium, n < 20 calls in a row all return
    true, each of them adds exactly 1 to the counter, and the counter is n
    afterwards. *)
Theorem attempts_below_limit (n : nat) (w : World) :
  (n < 20)%nat ->
  generationCount (app w) = 0 -> isPremium (app w) = false ->
  fst (attempts n w) = repeat true n
  /\ (forall k : nat, (k < n)%nat ->
        let before := snd (attempts k w) in
        fst (attemptGeneration before) = true
        /\ snd (attempts (S k) w) = snd (attemptGeneration before)
        /\ generationCount (app (snd (attemptGeneration before)))
           = generationCount (app before) + 1)
  /\ generationCount (app (snd (attempts n w))) = Z.of_nat n.
Proof.
  intros Hn Hc Hp. unfold GENERATION_LIMIT in *.
  destruct (attempts_free n w Hp) as (Hb & _ & Hc');
    [unfold GENERATION_LIMIT; lia|].
  split; [exact Hb|]. split; [|lia].
  intros k Hk.
  destruct (attempts_free k w Hp) as (_ & Hpk & Hck);
    [unfold GENERATION_LIMIT; lia|].
  rewrite attempts_S. cbn [snd].
  rewrite (attempt_free_below (snd (attempts k w)))
    by (trivial; unfold GENERATION_LIMIT; lia).
  cbn. auto.
Qed.

Lemma attempts_below_limit_witness :
  fst (attempts 19 initialWorld) = repeat true 19
  /\ generationCount (app (snd (attempts 19 initialWorld))) = 19.
Proof.
  destruct (attempts_below_limit 19 initialWorld) as (Hb & _ & Hc);
    [lia | reflexivity | reflexivity |].
  split; [exact Hb | exact Hc].
Defined.

(** C4. For a premium user the gate returns true and changes nothing at all,
    whatever the counter is, 20 and more included. *)
Theorem attemptGeneration_premium_no_change (w : World) :
  isPremium (app w) = true ->
  attemptGeneration w = (true, w)
  /\ generationCount (app (snd (attemptGeneration w))) = generationCount (app w)
  /\ isPremium (app (snd (attemptGeneration w))) = isPremium (app w)
  /\ currentPage (app (snd (attemptGeneration w))) = currentPage (app w)
  /\ initialTab (app (snd (attemptGeneration w))) = initialTab (app w)
  /\ showPaywall (app (snd (attemptGeneration w))) = showPaywall (app w).
Proof.
  intros Hp. rewrite (attempt_premium w Hp). cbn. repeat split.
Qed.

Lemma attemptGeneration_premium_no_change_witness :
  generationCount (app exhaustedThenPaid) = 20
  /\ attemptGeneration exhaustedThenPaid = (true, exhaustedThenPaid).
Proof.
  split; [reflexivity|].
  apply (attemptGeneration_premium_no_change exhaustedThenPaid). reflexivity.
Defined.

(** C5. Whatever the state, a successful payment turns premium on and shows
    the optimizer page; a second call finds and leaves both that way.  The
    handler is a total function made of setter calls and one timer: there is
    no state in which it fails. *)
Theorem onPaymentSuccess_idempotent (w : World) :
  let once := snd (onPaymentSuccess w) in
  let twice := snd (onPaymentSuccess once) in
  isPremium (app once) = true /\ currentPage (app once) = optimizer
  /\ isPremium (app twice) = true /\ currentPage (app twice) = optimizer
  /\ app twice = app once.
Proof.
  cbn. repeat split.
Qed.

(** ** What one event can do to the counter and to premium *)

Lemma attempt_counter (w : World) :
  generationCount (app w) <= generationCount (app (snd (attemptGeneration w)))
  /\ isPremium (app (snd (attemptGeneration w))) = isPremium (app w).
Proof.
  destruct (attempt_cases w) as [[Hp E] | [[Hp [Hc E]] | [Hp [Hc E]]]];
    rewrite E; cbn; split; trivial; lia.
Qed.

(** A product submission leaves the world alone or consults the gate once. *)
Lemma product_submit_world (gate : M World bool)
      (snap form : ProductOptimizer.State) (w : World) :
  let w' := snd (snd (ProductOptimizer.handleSubmit gate snap (form, w))) in
  w' = w \/ w' = snd (gate w).
Proof.
  unfold ProductOptimizer.handleSubmit.
  destruct (Js.blank _ || Js.blank _); [left; reflexivity|].
  right. unfold bind, inWorld. cbn [fst snd].
  destruct (gate w) as [[|] w1]; reflexivity.
Qed.

Lemma category_submit_world (gate : M World bool)
      (snap form : CategoryOptimizer.State) (w : World) :
  let w' := snd (snd (CategoryOptimizer.handleSubmit gate snap (form, w))) in
  w' = w \/ w' = snd (gate w).
Proof.
  unfold CategoryOptimizer.handleSubmit.
  destruct (Js.blank _ || Js.blank _); [left; reflexivity|].
  right. unfold bind, inWorld. cbn [fst snd].
  destruct (gate w) as [[|] w1]; reflexivity.
Qed.

Lemma step_counter_premium (e : Event) (w : World) :
  generationCount (app w) <= generationCount (app (step e w))
  /\ (isPremium (app w) = true -> isPremium (app (step e w)) = true).
Proof.
  destruct e; cbn [step].
  1-3, 9-11: cbn; split; [lia | trivial].
  - destruct (product_submit_world attemptGeneration form form w) as [E | E];
      rewrite E; [split; [lia | trivial]|].
    destruct (attempt_counter w) as [Hc Hp]. rewrite Hp. now split.
  - destruct (category_submit_world attemptGeneration form form w) as [E | E];
      rewrite E; [split; [lia | trivial]|].
    destruct (attempt_counter w) as [Hc Hp]. rewrite Hp. now split.
  - destruct r; cbn; split; [lia | trivial | lia | trivial].
  - destruct r; cbn; split; [lia | trivial | lia | trivial].
  - destruct (attempt_counter w) as [Hc Hp]. rewrite Hp. now split.
  - destruct capture; cbn; split; [lia | trivial | lia | trivial].
  - cbn; split; [lia | trivial].
  - unfold fireTimer. destruct (nth_error (timers w) index) as [[[|] ms]|];
      cbn; split; [lia | trivial | lia | trivial | lia | trivial].
Qed.

Lemma run_counter_premium (events : list Event) (w : World) :
  generationCount (app w) <= generationCount (app (run events w))
  /\ (isPremium (app w) = true -> isPremium (app (run events w)) = true).
Proof.
  revert w. induction events as [|e rest IH]; intros w.
  - cbn. split; [lia | trivial].
  - change (run (e :: rest) w) with (run rest (step e w)).
    destruct (step_counter_premium e w) as [Hc Hp].
    destruct (IH (step e w)) as [Hc' Hp']. split; [lia | auto].
Qed.

(** C6. In every session the counter starts at 0, is never negative and never
    goes down, whatever the events are; premium starts off and, once on, stays
    on. *)
Theorem session_counter_and_premium_monotone :
  generationCount (app initialWorld) = 0
  /\ isPremium (app initialWorld) = false
  /\ forall earlier later : list Event,
       let w1 := run earlier initialWorld in
       let w2 := run later w1 in
       0 <= generationCount (app w1)
       /\ generationCount (app w1) <= generationCount (app w2)
       /\ (isPremium (app w1) = true -> isPremium (app w2) = true).
Proof.
  split; [reflexivity|]. split; [reflexivity|].
  intros earlier later w1 w2.
  destruct (run_counter_premium earlier initialWorld) as [H0 _].
  destruct (run_counter_premium later w1) as [Hc Hp].
  repeat split; trivial.
Qed.

Lemma session_counter_and_premium_monotone_witness :
  isPremium (app paidAfterFive) = true
  /\ isPremium (app (run [LogoClick; Optimize category; GenerationAttempt;
                          PaymentError []; TimerFires 0] paidAfterFive)) = true.
Proof.
  split; [reflexivity|].
  apply (proj2 (proj2 session_counter_and_premium_monotone)
           (Optimize product :: repeat GenerationAttempt 5
            ++ [GoPremium; PaymentApproved (Fulfilled tt)])
           [LogoClick; Optimize category; GenerationAttempt;
            PaymentError []; TimerFires 0]).
  reflexivity.
Defined.

(** Without premium the counter of a session never passes the limit, so the
    exact integer arithmetic of the model is the arithmetic of the program. *)
Lemma session_counter_bounded (events : list Event) :
  generationCount (app (run events initialWorld)) <= GENERATION_LIMIT.
Proof.
  assert (G : forall w, generationCount (app w) <= GENERATION_LIMIT ->
              generationCount (app (snd (attemptGeneration w))) <= GENERATION_LIMIT).
  { intros w Hw.
    destruct (attempt_cases w) as [[Hp E] | [[Hp [Hc E]] | [Hp [Hc E]]]];
      rewrite E; cbn; unfold GENERATION_LIMIT in *; lia. }
  assert (St : forall e w, generationCount (app w) <= GENERATION_LIMIT ->
               generationCount (app (step e w)) <= GENERATION_LIMIT).
  { intros e w Hw. destruct e; cbn [step]; auto.
    - destruct (product_submit_world attemptGeneration form form w) as [E | E];
        rewrite E; auto.
    - destruct (category_submit_world attemptGeneration form form w) as [E | E];
        rewrite E; auto.
    - destruct r; exact Hw.
    - destruct r; exact Hw.
    - destruct capture; exact Hw.
    - unfold fireTimer.
      destruct (nth_error (timers w) index) as [[[|] ms]|]; exact Hw. }
  assert (R : forall w, generationCount (app w) <= GENERATION_LIMIT ->
              generationCount (app (run events w)) <= GENERATION_LIMIT).
  { induction events as [|e rest IH]; intros w Hw; [exact Hw|].
    change (run (e :: rest) w) with (run rest (step e w)). auto. }
  apply R. cbn. unfold GENERATION_LIMIT. lia.
Qed.

(** ** The paywall *)

(** C7, as the claim states it, fails for the user who has used up the free
    generations: the call is refused and the page is still the optimizer. *)
Lemma refused_attempt_does_not_redirect :
  ~ (fst (attemptGeneration exhausted) = false ->
     currentPage (app (snd (attemptGeneration exhausted))) = pricing).
Proof.
  intros H.
  assert (E : currentPage (app (snd (attemptGeneration exhausted))) = optimizer)
    by (vm_compute; reflexivity).
  rewrite E in H. specialize (H eq_refl). discriminate H.
Qed.

(** C7, amended. A refused attempt sets the paywall flag, which opens the
    paywall modal, and changes nothing else: the page stays what it was.  From
    there the modal's upgrade action clears the flag and goes to the pricing
    page, and its close action clears the flag and stays on the page. *)
Theorem refused_attempt_opens_paywall (w : World) :
  fst (attemptGeneration w) = false ->
  let w' := snd (attemptGeneration w) in
  w' = snd (App.setShowPaywall true w)
  /\ showPaywall (app w') = true
  /\ currentPage (app w') = currentPage (app w)
  /\ currentPage (app (snd (App.paywallOnUpgrade w'))) = pricing
  /\ showPaywall (app (snd (App.paywallOnUpgrade w'))) = false
  /\ currentPage (app (snd (App.paywallOnClose w'))) = currentPage (app w)
  /\ showPaywall (app (snd (App.paywallOnClose w'))) = false.
Proof.
  destruct (attempt_cases w) as [[Hp E] | [[Hp [Hc E]] | [Hp [Hc E]]]];
    rewrite E; cbn [fst snd]; try discriminate.
  intros _. cbn. repeat split.
Qed.

Lemma refused_attempt_opens_paywall_witness :
  showPaywall (app (snd (attemptGeneration exhausted))) = true
  /\ currentPage (app (snd (attemptGeneration exhausted))) = optimizer.
Proof.
  destruct (refused_attempt_opens_paywall exhausted) as (_ & Hs & Hc & _);
    [reflexivity|].
  split; [exact Hs | exact Hc].
Defined.

(** ** Required fields *)

Example trim_strips_both_ends :
  Js.trim ([9; 32] ++ lit "green tea" ++ [160; 10])%N = lit "green tea".
Proof. vm_compute. reflexivity. Qed.

Example split_lf_pieces :
  Js.split_lf (lit "a" ++ [10] ++ [10] ++ lit "b")%N = [lit "a"; []; lit "b"]
  /\ Js.split_lf [] = [[]].
Proof. split; vm_compute; reflexivity. Qed.

(** A price that is missing or blank is shown as N/A, a missing link as #. *)
Example productDetails_lines :
  CategoryOptimizer.productDetails
    {| CategoryOptimizer.categoryKeywords := lit "tea";
       CategoryOptimizer.productNames := (lit " Green Tea" ++ [10] ++ lit "Chamomile")%N;
       CategoryOptimizer.productPrices := lit "$12.99";
       CategoryOptimizer.productLinks := [];
       CategoryOptimizer.isLoading := false;
       CategoryOptimizer.error := None;
       CategoryOptimizer.content := None |}
  = (lit "- Green Tea (Price: $12.99, Link: #)" ++ [10]
     ++ lit "- Chamomile (Price: N/A, Link: #)")%N.
Proof. vm_compute. reflexivity. Qed.

Lemma trimStart_nil_iff (s : JsString) :
  Js.trimStart s = [] <-> whitespaceOnly s.
Proof.
  unfold whitespaceOnly. induction s as [|c t IH]; cbn.
  - split; [constructor | reflexivity].
  - destruct (Js.isWhiteSpace c) eqn:Hc.
    + rewrite IH. split; intros H.
      * now constructor.
      * now inversion H.
    + split; [discriminate|]. intros H. inversion H; congruence.
Qed.

(** What [trimStart] leaves is empty or starts with a character that is not
    white space, so trimming it again changes nothing. *)
Lemma trimStart_whitespaceOnly (s : JsString) :
  whitespaceOnly (Js.trimStart s) -> Js.trimStart s = [].
Proof.
  induction s as [|c t IH]; cbn; [reflexivity|].
  destruct (Js.isWhiteSpace c) eqn:Hc; [exact IH|].
  intros H. inversion H; congruence.
Qed.

Lemma whitespaceOnly_rev (s : JsString) :
  whitespaceOnly (rev s) <-> whitespaceOnly s.
Proof.
  unfold whitespaceOnly. rewrite !Forall_forall.
  split; intros H c Hin; apply H; [now apply in_rev in Hin | now apply in_rev].
Qed.

Lemma trimEnd_nil_iff (s : JsString) :
  Js.trimEnd s = [] <-> whitespaceOnly s.
Proof.
  unfold Js.trimEnd. rewrite <- whitespaceOnly_rev, <- trimStart_nil_iff.
  split; intros H.
  - apply (f_equal (@rev N)) in H. now rewrite rev_involutive in H.
  - now rewrite H.
Qed.

Lemma trim_nil_iff (s : JsString) : Js.trim s = [] <-> whitespaceOnly s.
Proof.
  unfold Js.trim. rewrite trimEnd_nil_iff. split; intros H.
  - now apply trimStart_nil_iff, trimStart_whitespaceOnly.
  - apply trimStart_nil_iff in H. rewrite H. constructor.
Qed.

(** The test of the forms is true exactly for the strings that are empty or
    made of white space only. *)
Lemma blank_iff (s : JsString) : Js.blank s = true <-> whitespaceOnly s.
Proof.
  rewrite <- trim_nil_iff. unfold Js.blank, Js.truthy.
  destruct (Js.trim s); cbn; split; congruence.
Qed.

(** C8. A submission with a required field that is empty or white space only
    (product name or keywords; category keywords or product names) stops at
    the validation: the handler returns with the error message set and the
    world of the application untouched.  This holds for every gate the form
    could have been given, also one that changes the world at each call, so
    the gate is not called; the usage counter is what it was. *)
Theorem blank_submission_skips_gate :
  (forall (gate : M World bool) (form : ProductOptimizer.State) (w : World),
     whitespaceOnly (ProductOptimizer.productName form)
     \/ whitespaceOnly (ProductOptimizer.keywords form) ->
     ProductOptimizer.handleSubmit gate form (form, w) =
       (Returned,
        snd (ProductOptimizer.setError
               (Some (lit "Please fill out both product name and keywords."))
               (form, w)))
     /\ snd (snd (ProductOptimizer.handleSubmit gate form (form, w))) = w
     /\ generationCount
          (app (snd (snd (ProductOptimizer.handleSubmit gate form (form, w)))))
        = generationCount (app w))
  /\
  (forall (gate : M World bool) (form : CategoryOptimizer.State) (w : World),
     whitespaceOnly (CategoryOptimizer.categoryKeywords form)
     \/ whitespaceOnly (CategoryOptimizer.productNames form) ->
     CategoryOptimizer.handleSubmit gate form (form, w) =
       (Returned,
        snd (CategoryOptimizer.setError
               (Some (lit "Please fill out category keywords and at least one product name."))
               (form, w)))
     /\ snd (snd (CategoryOptimizer.handleSubmit gate form (form, w))) = w
     /\ generationCount
          (app (snd (snd (CategoryOptimizer.handleSubmit gate form (form, w)))))
        = generationCount (app w)).
Proof.
  split; intros gate form w H.
  - assert (B : Js.blank (ProductOptimizer.productName form)
                || Js.blank (ProductOptimizer.keywords form) = true).
    { apply orb_true_iff. destruct H as [H | H]; [left | right];
        now apply blank_iff. }
    unfold ProductOptimizer.handleSubmit. rewrite B. repeat split.
  - assert (B : Js.blank (CategoryOptimizer.categoryKeywords form)
                || Js.blank (CategoryOptimizer.productNames form) = true).
    { apply orb_true_iff. destruct H as [H | H]; [left | right];
        now apply blank_iff. }
    unfold CategoryOptimizer.handleSubmit. rewrite B. repeat split.
Qed.

Lemma blank_submission_skips_gate_witness :
  snd (snd (ProductOptimizer.handleSubmit markingGate blankKeywordsForm
              (blankKeywordsForm, initialWorld))) = initialWorld
  /\ snd (snd (CategoryOptimizer.handleSubmit markingGate noNamesForm
                 (noNamesForm, initialWorld))) = initialWorld.
Proof.
  split.
  - apply (proj1 blank_submission_skips_gate markingGate blankKeywordsForm
             initialWorld).
    right. repeat constructor.
  - apply (proj2 blank_submission_skips_gate markingGate noNamesForm
             initialWorld).
    right. constructor.
Defined.

(** With both fields filled in, the same marking gate is consulted: the
    quantification over gates in the theorem above does detect a call. *)
Lemma filled_submission_consults_gate :
  console (snd (snd (CategoryOptimizer.handleSubmit markingGate
     {| CategoryOptimizer.categoryKeywords := lit "herbal tea";
        CategoryOptimizer.productNames := lit "Chamomile";
        CategoryOptimizer.productPrices := [];
        CategoryOptimizer.productLinks := [];
        CategoryOptimizer.isLoading := false;
        CategoryOptimizer.error := None;
        CategoryOptimizer.content := None |}
     (CategoryOptimizer.initial, initialWorld))))
  = [[lit "gate consulted"]].
Proof. vm_compute. reflexivity. Qed.

(** ** Payment outcomes *)

(** C9. The error outcome of the Payment Processor adds one entry to the
    console and changes nothing else: premium, counter, page and tab are what
    they were, and so are the timers.  A payment approved afterwards has the
    effect it would have had without the failure, so the user can try again. *)
Theorem payment_failure_no_state_change (err : JsString) (w : World) :
  let w' := snd (paymentFailure err w) in
  app w' = app w
  /\ isPremium (app w') = isPremium (app w)
  /\ generationCount (app w') = generationCount (app w)
  /\ currentPage (app w') = currentPage (app w)
  /\ initialTab (app w') = initialTab (app w)
  /\ timers w' = timers w
  /\ console w' = console w ++ [[lit "PayPal SDK Error:"; err]]
  /\ app (snd (paymentApproved (Fulfilled tt) w'))
     = app (snd (paymentApproved (Fulfilled tt) w))
  /\ isPremium (app (snd (paymentApproved (Fulfilled tt) w'))) = true.
Proof.
  cbn. repeat split.
Qed.

(** A capture that fails inside the approval callback does not reach the
    application either. *)
Lemma failed_capture_no_state_change (err : JsString) (w : World) :
  paymentApproved (Rejected err) w = (Rejected err, w).
Proof. reflexivity. Qed.

(** ** The two versions of the gate *)

(** C10. For a user without premium, the gate of src/App.tsx does on its
    state what the gate of the full application does: same result, same
    counter, same paywall flag, nothing else touched.  The src/App.tsx gate
    has no premium branch: its state has no such cell and its result is a
    function of the counter alone. *)
Theorem gate_agrees_with_AppTsx :
  (forall w : World,
     isPremium (app w) = false ->
     AppTsx.attemptGeneration (forget w)
     = (fst (attemptGeneration w), forget (snd (attemptGeneration w))))
  /\ (forall lw : AppTsx.World,
        fst (AppTsx.attemptGeneration lw)
        = negb (AppTsx.generationCount (AppTsx.app lw) >=? GENERATION_LIMIT)).
Proof.
  split.
  - intros w Hp.
    unfold attemptGeneration, dispatch, App.handleGenerationAttempt,
      AppTsx.attemptGeneration, AppTsx.handleGenerationAttempt.
    rewrite Hp. cbn [forget AppTsx.app AppTsx.generationCount].
    destruct (generationCount (app w) >=? GENERATION_LIMIT); reflexivity.
  - intros lw. unfold AppTsx.attemptGeneration, AppTsx.handleGenerationAttempt.
    destruct (_ >=? _); reflexivity.
Qed.

Lemma gate_agrees_with_AppTsx_witness :
  AppTsx.attemptGeneration (forget exhausted)
  = (false, forget (snd (attemptGeneration exhausted))).
Proof.
  apply (proj1 gate_agrees_with_AppTsx exhausted). reflexivity.
Defined.

(** The hypothesis is needed: once premium is on, the full application lets
    the exhausted user through and the gate of src/App.tsx, run on the same
    cells, does not. *)
Lemma gate_differs_when_premium :
  fst (attemptGeneration exhaustedThenPaid) = true
  /\ fst (AppTsx.attemptGeneration (forget exhaustedThenPaid)) = false.
Proof. split; vm_compute; reflexivity. Qed.

(** * Further properties of the code *)

(** ** Sessions *)

Lemma product_submit_step (form : ProductOptimizer.State) (w : World) :
  step (SubmitProduct form) w =
    if consultsGate (SubmitProduct form) then snd (attemptGeneration w) else w.
Proof.
  cbn [step consultsGate]. unfold ProductOptimizer.handleSubmit.
  destruct (Js.blank _ || Js.blank _); [reflexivity|].
  cbn [negb]. unfold bind, inWorld. cbn [fst snd].
  destruct (attemptGeneration w) as [[|] w1]; reflexivity.
Qed.

Lemma category_submit_step (form : CategoryOptimizer.State) (w : World) :
  step (SubmitCategory form) w =
    if consultsGate (SubmitCategory form) then snd (attemptGeneration w) else w.
Proof.
  cbn [step consultsGate]. unfold CategoryOptimizer.handleSubmit.
  destruct (Js.blank _ || Js.blank _); [reflexivity|].
  cbn [negb]. unfold bind, inWorld. cbn [fst snd].
  destruct (attemptGeneration w) as [[|] w1]; reflexivity.
Qed.

(** Every event is a consultation of the gate, an approved payment, or
    leaves the counter and premium alone and does not raise the paywall. *)
Lemma step_shape (e : Event) (w : World) :
  (consultsGate e = true /\ step e w = snd (attemptGeneration w))
  \/ (consultsGate e = false /\ approves e = true
      /\ step e w = snd (onPaymentSuccess w))
  \/ (consultsGate e = false /\ approves e = false
      /\ generationCount (app (step e w)) = generationCount (app w)
      /\ isPremium (app (step e w)) = isPremium (app w)
      /\ (showPaywall (app (step e w)) = true -> showPaywall (app w) = true)).
Proof.
  destruct e.
  1-3, 9-11, 13: right; right; cbn; repeat split; trivial; discriminate.
  - rewrite product_submit_step.
    destruct (consultsGate (SubmitProduct form)); [left; split; reflexivity|].
    right; right. repeat split; trivial.
  - rewrite category_submit_step.
    destruct (consultsGate (SubmitCategory form)); [left; split; reflexivity|].
    right; right. repeat split; trivial.
  - right; right. destruct r; cbn; repeat split; trivial.
  - right; right. destruct r; cbn; repeat split; trivial.
  - left. split; reflexivity.
  - destruct capture as [[]|err].
    + right; left. repeat split.
    + right; right. cbn. repeat split; trivial.
  - right; right. cbn [step consultsGate approves]. unfold fireTimer.
    destruct (nth_error (timers w) index) as [[[|] ms]|];
      cbn; repeat split; trivial.
Qed.

Lemma run_cons (e : Event) (rest : list Event) (w : World) :
  run (e :: rest) w = run rest (step e w).
Proof. reflexivity. Qed.

Lemma run_app (earlier later : list Event) (w : World) :
  run (earlier ++ later) w = run later (run earlier w).
Proof. unfold run. apply fold_left_app. Qed.

(** X1. In every session the counter stays between 0 and the limit: the gate
    is the only code that raises it, by one, and only below the limit. *)
Theorem session_counter_range (events : list Event) :
  0 <= generationCount (app (run events initialWorld)) <= GENERATION_LIMIT.
Proof.
  split.
  - apply (run_counter_premium events initialWorld).
  - apply session_counter_bounded.
Qed.

Lemma free_run_counter (events : list Event) (w : World) :
  forallb (fun e => negb (approves e)) events = true ->
  isPremium (app w) = false ->
  generationCount (app w) <= GENERATION_LIMIT ->
  isPremium (app (run events w)) = false
  /\ generationCount (app (run events w))
     = Z.min GENERATION_LIMIT
         (generationCount (app w) + Z.of_nat (countIf consultsGate events)).
Proof.
  revert w. induction events as [|e rest IH]; intros w Hall Hp Hc.
  - cbn. split; [exact Hp | lia].
  - cbn [forallb] in Hall. apply andb_true_iff in Hall as [He Hall].
    apply negb_true_iff in He. rewrite run_cons. cbn [countIf].
    destruct (step_shape e w) as [[Hg E] | [[Hg [Ha E]] | (Hg & Ha & Ec & Ep & _)]].
    + rewrite Hg, E.
      destruct (attempt_cases w) as [[Hq _] | [[_ [Hlt Ea]] | [_ [Hge Ea]]]];
        [congruence | |]; rewrite Ea;
        (destruct (IH (snd (attemptGeneration w))) as [Hp' Hc'];
         [exact Hall | rewrite Ea; exact Hp | rewrite Ea; cbn; lia |]);
        rewrite Ea in Hp', Hc'; (split; [exact Hp'|]); rewrite Hc'; cbn; lia.
    + congruence.
    + rewrite Hg. destruct (IH (step e w)) as [Hp' Hc']; try congruence.
      split; [exact Hp'|]. rewrite Hc', Ec. reflexivity.
Qed.

(** X2. As long as no payment is approved, premium stays off and the counter
    is the number of gate consultations so far (direct attempts and
    submissions that pass validation), capped at the limit of 20. *)
Theorem free_session_counter (events : list Event) :
  forallb (fun e => negb (approves e)) events = true ->
  isPremium (app (run events initialWorld)) = false
  /\ generationCount (app (run events initialWorld))
     = Z.min 20 (Z.of_nat (countIf consultsGate events)).
Proof.
  intros Hall.
  apply (free_run_counter events initialWorld Hall); [reflexivity|].
  cbn. unfold GENERATION_LIMIT. lia.
Qed.

Lemma free_session_counter_witness :
  generationCount
    (app (run (Optimize product :: SubmitProduct blankKeywordsForm
               :: repeat GenerationAttempt 23 ++ [PaywallClose; PaymentError []])
              initialWorld))
  = Z.min 20
      (Z.of_nat (countIf consultsGate
         (Optimize product :: SubmitProduct blankKeywordsForm
          :: repeat GenerationAttempt 23 ++ [PaywallClose; PaymentError []]))).
Proof.
  apply (free_session_counter
           (Optimize product :: SubmitProduct blankKeywordsForm
            :: repeat GenerationAttempt 23 ++ [PaywallClose; PaymentError []])).
  vm_compute. reflexivity.
Defined.

(** X3. Once premium is on, nothing moves the counter any more and the gate
    lets every attempt through, whatever happens in between. *)
Theorem premium_freezes_counter (w : World) (events : list Event) :
  isPremium (app w) = true ->
  isPremium (app (run events w)) = true
  /\ generationCount (app (run events w)) = generationCount (app w)
  /\ fst (attemptGeneration (run events w)) = true.
Proof.
  intros Hp.
  assert (H : isPremium (app (run events w)) = true
              /\ generationCount (app (run events w)) = generationCount (app w)).
  { revert w Hp. induction events as [|e rest IH]; intros w Hp; [now split|].
    rewrite run_cons.
    destruct (step_shape e w) as [[_ E] | [[_ [_ E]] | (_ & _ & Ec & Ep & _)]].
    - rewrite E, (attempt_premium w Hp). cbn [snd]. now apply IH.
    - destruct (IH (step e w)) as [Hp' Hc']; [rewrite E; reflexivity|].
      split; [exact Hp'|]. rewrite Hc', E. reflexivity.
    - destruct (IH (step e w)) as [Hp' Hc']; [congruence|].
      split; [exact Hp' | congruence]. }
  destruct H as [Hp' Hc']. repeat split; trivial.
  now rewrite (attempt_premium _ Hp').
Qed.

Lemma premium_freezes_counter_witness :
  generationCount
    (app (run (repeat GenerationAttempt 30 ++ [LogoClick; PaywallClose])
              paidAfterFive)) = generationCount (app paidAfterFive).
Proof.
  apply (premium_freezes_counter paidAfterFive
           (repeat GenerationAttempt 30 ++ [LogoClick; PaywallClose])).
  vm_compute. reflexivity.
Defined.

(** X4. The paywall flag is only ever up when the free allowance is used
    up: in every session, [showPaywall] implies a counter of exactly 20. *)
Theorem paywall_only_when_exhausted (events : list Event) :
  showPaywall (app (run events initialWorld)) = true ->
  generationCount (app (run events initialWorld)) = GENERATION_LIMIT.
Proof.
  assert (St : forall e w,
    (showPaywall (app w) = true -> GENERATION_LIMIT <= generationCount (app w)) ->
    showPaywall (app (step e w)) = true ->
    GENERATION_LIMIT <= generationCount (app (step e w))).
  { intros e w Hw.
    destruct (step_shape e w) as [[_ E] | [[_ [_ E]] | (_ & _ & Ec & _ & Es)]].
    - rewrite E.
      destruct (attempt_cases w) as [[_ Ea] | [[_ [Hlt Ea]] | [_ [Hge Ea]]]];
        rewrite Ea; cbn; auto. intros Hs. specialize (Hw Hs). lia.
    - rewrite E. cbn. exact Hw.
    - rewrite Ec. auto. }
  assert (R : forall w,
    (showPaywall (app w) = true -> GENERATION_LIMIT <= generationCount (app w)) ->
    showPaywall (app (run events w)) = true ->
    GENERATION_LIMIT <= generationCount (app (run events w))).
  { induction events as [|e rest IH]; intros w Hw; [exact Hw|].
    rewrite run_cons. apply IH. now apply St. }
  intros Hs. pose proof (session_counter_bounded events) as Hb.
  specialize (R initialWorld). cbn beta in R.
  assert (GENERATION_LIMIT <= generationCount (app (run events initialWorld))).
  { apply R; [|exact Hs]. cbn. discriminate. }
  lia.
Qed.

Lemma paywall_only_when_exhausted_witness :
  generationCount
    (app (run (Optimize product :: repeat GenerationAttempt 21 ++ [LogoClick])
              initialWorld)) = GENERATION_LIMIT.
Proof.
  apply (paywall_only_when_exhausted
           (Optimize product :: repeat GenerationAttempt 21 ++ [LogoClick])).
  vm_compute. reflexivity.
Defined.

(** ** Notifications and their timers *)

Lemma In_remove_nth {A : Type} (l : list A) (index : nat) (x y : A) :
  nth_error l index = Some y -> In x l -> x <> y ->
  In x (firstn index l ++ skipn (S index) l).
Proof.
  revert index. induction l as [|a rest IH]; intros [|k] Hn Hin Hne;
    cbn in *; try discriminate.
  - destruct Hin as [E | Hin]; [congruence | exact Hin].
  - destruct Hin as [E | Hin]; [left; exact E | right; eauto].
Qed.

Lemma attempt_keeps_messages (w : World) :
  messagesCovered w -> messagesCovered (snd (attemptGeneration w)).
Proof.
  intros Hw.
  destruct (attempt_cases w) as [[_ Ea] | [[_ [_ Ea]] | [_ [_ Ea]]]];
    rewrite Ea; exact Hw.
Qed.

Lemma step_keeps_messages (e : Event) (w : World) :
  messagesCovered w -> messagesCovered (step e w).
Proof.
  intros [Hpay Hcopy]. destruct e.
  1-3, 10-11: split; cbn; assumption.
  - rewrite product_submit_step. destruct (consultsGate _); [|now split].
    apply attempt_keeps_messages. now split.
  - rewrite category_submit_step. destruct (consultsGate _); [|now split].
    apply attempt_keeps_messages. now split.
  - destruct r; split; cbn; assumption.
  - destruct r; split; cbn; assumption.
  - apply attempt_keeps_messages. now split.
  - split; cbn; intros H; apply in_or_app; [left; auto | right; now left].
  - destruct capture as [[]|err]; [|split; cbn; assumption].
    split; cbn; intros H; apply in_or_app; [right; now left | left; auto].
  - split; cbn; assumption.
  - cbn [step]. unfold fireTimer.
    destruct (nth_error (timers w) index) as [[[|] ms]|] eqn:Hn;
      [| |now split]; split; cbn; intros H; try discriminate.
    + apply (In_remove_nth _ _ _ _ Hn); [auto | discriminate].
    + apply (In_remove_nth _ _ _ _ Hn); [auto | discriminate].
Qed.

(** X5. A notification never sticks: in every session, while the payment
    message is shown a timer of 3000 ms that hides it is pending, and while
    the copy message is shown a timer of 2000 ms that hides it is pending. *)
Theorem shown_message_has_pending_timer (events : list Event) :
  let w := run events initialWorld in
  (showPaymentSuccessMessage (app w) = true ->
   In (hidePaymentSuccessMessage, 3000) (timers w))
  /\ (showCopyMessage (app w) = true -> In (hideCopyMessage, 2000) (timers w)).
Proof.
  cbn zeta. change (messagesCovered (run events initialWorld)).
  assert (R : forall w, messagesCovered w -> messagesCovered (run events w)).
  { induction events as [|e rest IH]; intros w Hw; [exact Hw|].
    rewrite run_cons. apply IH. now apply step_keeps_messages. }
  apply R. split; cbn; discriminate.
Qed.

Lemma shown_message_has_pending_timer_witness :
  In (hidePaymentSuccessMessage, 3000)
     (timers (run [GoPremium; PaymentApproved (Fulfilled tt); Copy;
                   TimerFires 1; Copy] initialWorld)).
Proof.
  apply (proj1 (shown_message_has_pending_timer
           [GoPremium; PaymentApproved (Fulfilled tt); Copy;
            TimerFires 1; Copy])).
  vm_compute. reflexivity.
Defined.

(** ** A generation from submission to result *)

Lemma not_blank (s : JsString) : ~ whitespaceOnly s -> Js.blank s = false.
Proof.
  intros H. destruct (Js.blank s) eqn:E; [|reflexivity].
  now apply blank_iff in E.
Qed.

Lemma product_submit_valid (gate : M World bool)
      (form : ProductOptimizer.State) (c : ProductOptimizer.Cells) :
  ~ whitespaceOnly (ProductOptimizer.productName form) ->
  ~ whitespaceOnly (ProductOptimizer.keywords form) ->
  ProductOptimizer.handleSubmit gate form c =
    if fst (gate (snd c))
    then (Awaiting (ProductOptimizer.productName form,
                    ProductOptimizer.keywords form,
                    ProductOptimizer.price form),
          ({| ProductOptimizer.productName := ProductOptimizer.productName (fst c);
              ProductOptimizer.keywords := ProductOptimizer.keywords (fst c);
              ProductOptimizer.price := ProductOptimizer.price (fst c);
              ProductOptimizer.isLoading := true;
              ProductOptimizer.error := None;
              ProductOptimizer.content := None |}, snd (gate (snd c))))
    else (Returned, (fst c, snd (gate (snd c)))).
Proof.
  intros Hn Hk. unfold ProductOptimizer.handleSubmit.
  rewrite (not_blank _ Hn), (not_blank _ Hk). cbn [orb].
  unfold bind, inWorld. destruct (gate (snd c)) as [[|] w1]; reflexivity.
Qed.

Lemma category_submit_valid (gate : M World bool)
      (form : CategoryOptimizer.State) (c : CategoryOptimizer.Cells) :
  ~ whitespaceOnly (CategoryOptimizer.categoryKeywords form) ->
  ~ whitespaceOnly (CategoryOptimizer.productNames form) ->
  CategoryOptimizer.handleSubmit gate form c =
    if fst (gate (snd c))
    then (Awaiting (CategoryOptimizer.categoryKeywords form,
                    CategoryOptimizer.productDetails form),
          ({| CategoryOptimizer.categoryKeywords := CategoryOptimizer.categoryKeywords (fst c);
              CategoryOptimizer.productNames := CategoryOptimizer.productNames (fst c);
              CategoryOptimizer.productPrices := CategoryOptimizer.productPrices (fst c);
              CategoryOptimizer.productLinks := CategoryOptimizer.productLinks (fst c);
              CategoryOptimizer.isLoading := true;
              CategoryOptimizer.error := None;
              CategoryOptimizer.content := None |}, snd (gate (snd c))))
    else (Returned, (fst c, snd (gate (snd c)))).
Proof.
  intros Hn Hk. unfold CategoryOptimizer.handleSubmit.
  rewrite (not_blank _ Hn), (not_blank _ Hk). cbn [orb].
  unfold bind, inWorld. destruct (gate (snd c)) as [[|] w1]; reflexivity.
Qed.

(** X6. A generation that fails is still counted, and its cause is only
    logged.  For a free user below the limit and a product form whose
    required fields are filled in, the submission followed by a failure of the
    service leaves the counter one higher, the same fixed message in the form
    whatever the cause, no content, the loading flag down, and two entries in
    the console: the cause, logged by the service, and the error the service
    threw, logged by the form.  Followed by a result, it leaves the result as
    content, no error and the console as it was. *)
Theorem product_generation_cycle
    (form : ProductOptimizer.State) (body : Settled ProductContent.t)
    (w : World) :
  isPremium (app w) = false ->
  generationCount (app w) < GENERATION_LIMIT ->
  ~ whitespaceOnly (ProductOptimizer.productName form) ->
  ~ whitespaceOnly (ProductOptimizer.keywords form) ->
  let after := productCycle form body (form, w) in
  let form' := fst (snd after) in
  let w' := snd (snd after) in
  fst after = true
  /\ generationCount (app w') = generationCount (app w) + 1
  /\ ProductOptimizer.isLoading form' = false
  /\ match body with
     | Fulfilled result =>
         ProductOptimizer.content form' = Some result
         /\ ProductOptimizer.error form' = None
         /\ console w' = console w
     | Rejected cause =>
         ProductOptimizer.content form' = None
         /\ ProductOptimizer.error form'
            = Some (lit "Failed to generate content. Please try again.")
         /\ console w'
            = console w
              ++ [[lit "Error generating product content:"; cause];
                  [lit "Failed to generate product content from Gemini API."]]
     end.
Proof.
  intros Hp Hc Hn Hk. unfold productCycle, bind.
  rewrite (product_submit_valid attemptGeneration form (form, w) Hn Hk).
  cbn [fst snd]. rewrite (attempt_free_below w Hp Hc). cbn [fst snd].
  destruct body; cbn; repeat split; try lia.
  now rewrite <- app_assoc.
Qed.

Lemma product_generation_cycle_witness :
  generationCount
    (app (snd (snd (productCycle filledProductForm (Rejected (lit "Error"))
                      (filledProductForm, initialWorld)))))
  = generationCount (app initialWorld) + 1.
Proof.
  refine (proj1 (proj2 (product_generation_cycle filledProductForm
                          (Rejected (lit "Error")) initialWorld _ _ _ _))).
  - reflexivity.
  - reflexivity.
  - intros H. inversion H as [|c t Hc Ht]. discriminate Hc.
  - intros H. inversion H as [|c t Hc Ht]. discriminate Hc.
Defined.

(** X7. The same for the category form: the failed call is counted, its
    cause goes to the console only, and the form shows the fixed message; the
    successful one leaves its result. *)
Theorem category_generation_cycle
    (form : CategoryOptimizer.State) (body : Settled CategoryContent.t)
    (w : World) :
  isPremium (app w) = false ->
  generationCount (app w) < GENERATION_LIMIT ->
  ~ whitespaceOnly (CategoryOptimizer.categoryKeywords form) ->
  ~ whitespaceOnly (CategoryOptimizer.productNames form) ->
  let after := categoryCycle form body (form, w) in
  let form' := fst (snd after) in
  let w' := snd (snd after) in
  fst after = true
  /\ generationCount (app w') = generationCount (app w) + 1
  /\ CategoryOptimizer.isLoading form' = false
  /\ match body with
     | Fulfilled result =>
         CategoryOptimizer.content form' = Some result
         /\ CategoryOptimizer.error form' = None
         /\ console w' = console w
     | Rejected cause =>
         CategoryOptimizer.content form' = None
         /\ CategoryOptimizer.error form'
            = Some (lit "Failed to generate content. Please try again.")
         /\ console w'
            = console w
              ++ [[lit "Error generating category content:"; cause];
                  [lit "Failed to generate category content from Gemini API."]]
     end.
Proof.
  intros Hp Hc Hn Hk. unfold categoryCycle, bind.
  rewrite (category_submit_valid attemptGeneration form (form, w) Hn Hk).
  cbn [fst snd]. rewrite (attempt_free_below w Hp Hc). cbn [fst snd].
  destruct body; cbn; repeat split; try lia.
  now rewrite <- app_assoc.
Qed.

Lemma category_generation_cycle_witness :
  generationCount
    (app (snd (snd (categoryCycle filledCategoryForm (Rejected (lit "Error"))
                      (filledCategoryForm, initialWorld)))))
  = generationCount (app initialWorld) + 1.
Proof.
  refine (proj1 (proj2 (category_generation_cycle filledCategoryForm
                          (Rejected (lit "Error")) initialWorld _ _ _ _))).
  - reflexivity.
  - reflexivity.
  - intros H. inversion H as [|c t Hc Ht]. discriminate Hc.
  - intros H. inversion H as [|c t Hc Ht]. discriminate Hc.
Defined.

(** X8. A submission that the gate refuses changes no cell of the form: no
    error text is set and nothing is requested.  All that happens is the
    paywall flag going up in the application. *)
Theorem refused_submission_leaves_form :
  (forall (form : ProductOptimizer.State) (w : World),
     isPremium (app w) = false -> GENERATION_LIMIT <= generationCount (app w) ->
     ~ whitespaceOnly (ProductOptimizer.productName form) ->
     ~ whitespaceOnly (ProductOptimizer.keywords form) ->
     ProductOptimizer.handleSubmit attemptGeneration form (form, w)
     = (Returned, (form, snd (App.setShowPaywall true w))))
  /\
  (forall (form : CategoryOptimizer.State) (w : World),
     isPremium (app w) = false -> GENERATION_LIMIT <= generationCount (app w) ->
     ~ whitespaceOnly (CategoryOptimizer.categoryKeywords form) ->
     ~ whitespaceOnly (CategoryOptimizer.productNames form) ->
     CategoryOptimizer.handleSubmit attemptGeneration form (form, w)
     = (Returned, (form, snd (App.setShowPaywall true w)))).
Proof.
  split; intros form w Hp Hc Hn Hk.
  - rewrite (product_submit_valid attemptGeneration form (form, w) Hn Hk).
    cbn [fst snd]. now rewrite (attempt_free_blocked w Hp Hc).
  - rewrite (category_submit_valid attemptGeneration form (form, w) Hn Hk).
    cbn [fst snd]. now rewrite (attempt_free_blocked w Hp Hc).
Qed.

Lemma refused_submission_leaves_form_witness :
  ProductOptimizer.handleSubmit attemptGeneration filledProductForm
    (filledProductForm, exhausted)
  = (Returned, (filledProductForm, snd (App.setShowPaywall true exhausted))).
Proof.
  apply (proj1 refused_submission_leaves_form filledProductForm exhausted).
  - reflexivity.
  - vm_compute. discriminate.
  - intros H. inversion H as [|c t Hc Ht]. discriminate Hc.
  - intros H. inversion H as [|c t Hc Ht]. discriminate Hc.
Defined.

(** X9. Whatever the outcome (validation failure, refusal, result or
    failure of the service) a form that was not loading is not loading after
    the cycle:
    the submit button, disabled while loading, is usable again. *)
Theorem cycle_ends_not_loading :
  (forall (form : ProductOptimizer.State) (body : Settled ProductContent.t)
          (w : World),
     ProductOptimizer.isLoading form = false ->
     ProductOptimizer.isLoading (fst (snd (productCycle form body (form, w))))
     = false)
  /\
  (forall (form : CategoryOptimizer.State) (body : Settled CategoryContent.t)
          (w : World),
     CategoryOptimizer.isLoading form = false ->
     CategoryOptimizer.isLoading (fst (snd (categoryCycle form body (form, w))))
     = false).
Proof.
  split; intros form body w Hl.
  - unfold productCycle, bind, ProductOptimizer.handleSubmit.
    destruct (Js.blank _ || Js.blank _); [exact Hl|].
    unfold bind, inWorld. cbn [fst snd].
    destruct (attemptGeneration w) as [[|] w1]; [|exact Hl].
    destruct body; reflexivity.
  - unfold categoryCycle, bind, CategoryOptimizer.handleSubmit.
    destruct (Js.blank _ || Js.blank _); [exact Hl|].
    unfold bind, inWorld. cbn [fst snd].
    destruct (attemptGeneration w) as [[|] w1]; [|exact Hl].
    destruct body; reflexivity.
Qed.

Lemma cycle_ends_not_loading_witness :
  CategoryOptimizer.isLoading
    (fst (snd (categoryCycle filledCategoryForm (Rejected (lit "Error"))
                 (filledCategoryForm, exhausted)))) = false.
Proof.
  apply (proj2 cycle_ends_not_loading filledCategoryForm
           (Rejected (lit "Error")) exhausted).
  reflexivity.
Defined.

(** ** The product list of the category form *)

Lemma split_lf_cons (c : N) (t : JsString) :
  Js.split_lf (c :: t) =
    if (c =? 10)%N then [] :: Js.split_lf t
    else match Js.split_lf t with
         | [] => [[c]]
         | piece :: rest => (c :: piece) :: rest
         end.
Proof. reflexivity. Qed.

Lemma split_lf_not_nil (s : JsString) : Js.split_lf s <> [].
Proof.
  induction s as [|c t IH]; [discriminate|].
  rewrite split_lf_cons. destruct (c =? 10)%N; [discriminate|].
  destruct (Js.split_lf t); discriminate.
Qed.

(** The pieces are made of characters of the string, the line feeds
    excepted. *)
Lemma split_lf_chars (P : N -> Prop) (s : JsString) :
  Forall P s -> Forall (Forall (fun c => P c /\ c <> 10%N)) (Js.split_lf s).
Proof.
  induction 1 as [|c t Hc Ht IH]; [repeat constructor|].
  rewrite split_lf_cons. destruct (N.eqb_spec c 10) as [E | E].
  - constructor; [constructor | exact IH].
  - destruct (Js.split_lf t) as [|piece rest]; [repeat constructor; trivial|].
    inversion IH; subst. constructor; [|assumption].
    constructor; [split|]; assumption.
Qed.

Lemma split_lf_one_piece (x y : JsString) :
  Forall (fun c => c <> 10%N) x ->
  Js.split_lf (x ++ 10%N :: y) = x :: Js.split_lf y.
Proof.
  induction 1 as [|c t Hc Ht IH]; [reflexivity|].
  cbn [List.app]. rewrite split_lf_cons, IH.
  destruct (N.eqb_spec c 10); [contradiction | reflexivity].
Qed.

Lemma split_lf_plain (x : JsString) :
  Forall (fun c => c <> 10%N) x -> Js.split_lf x = [x].
Proof.
  induction 1 as [|c t Hc Ht IH]; [reflexivity|].
  rewrite split_lf_cons, IH.
  destruct (N.eqb_spec c 10); [contradiction | reflexivity].
Qed.

(** Joining with line feeds and splitting again gives the pieces back, when
    no piece has a line feed of its own. *)
Lemma split_join (l : list JsString) :
  l <> [] -> Forall (Forall (fun c => c <> 10%N)) l ->
  Js.split_lf (Js.join [10%N] l) = l.
Proof.
  intros Hne H. induction H as [|x rest Hx Hrest IH]; [contradiction|].
  destruct rest as [|y rest'].
  - cbn. now apply split_lf_plain.
  - change (Js.join [10%N] (x :: y :: rest'))
      with (x ++ 10%N :: Js.join [10%N] (y :: rest')).
    rewrite (split_lf_one_piece _ _ Hx), IH; [reflexivity | discriminate].
Qed.

Lemma split_lf_length (s : JsString) :
  List.length (Js.split_lf s) = S (countIf (fun c => (c =? 10)%N) s).
Proof.
  induction s as [|c t IH]; [reflexivity|].
  rewrite split_lf_cons. cbn [countIf]. destruct (c =? 10)%N.
  - cbn. now rewrite IH.
  - destruct (Js.split_lf t); cbn in *; lia.
Qed.

Lemma trimStart_Forall (P : N -> Prop) (s : JsString) :
  Forall P s -> Forall P (Js.trimStart s).
Proof.
  induction 1 as [|c t Hc Ht IH]; [constructor|].
  cbn. destruct (Js.isWhiteSpace c); [exact IH | now constructor].
Qed.

Lemma trim_Forall (P : N -> Prop) (s : JsString) :
  Forall P s -> Forall P (Js.trim s).
Proof.
  intros H. unfold Js.trim, Js.trimEnd.
  apply Forall_rev, trimStart_Forall, Forall_rev, trimStart_Forall, H.
Qed.

Lemma orElse_Forall (P : N -> Prop) (a : option JsString) (d : JsString) :
  (forall s, a = Some s -> Forall P s) -> Forall P d ->
  Forall P (Js.orElse a d).
Proof.
  intros Ha Hd. unfold Js.orElse. destruct a as [s|]; [|exact Hd].
  destruct (Js.truthy s); [now apply Ha | exact Hd].
Qed.

Lemma nth_piece_Forall (P : N -> Prop) (l : list JsString) (index : nat)
      (s : JsString) :
  Forall (Forall P) l -> Js.optTrim (nth_error l index) = Some s -> Forall P s.
Proof.
  intros Hl E. unfold Js.optTrim in E.
  destruct (nth_error l index) as [p|] eqn:Hn; [|discriminate].
  injection E as <-. apply trim_Forall.
  rewrite Forall_forall in Hl. apply Hl. eapply nth_error_In, Hn.
Qed.

Lemma lit_no_lf_detail :
  Forall (fun c => c <> 10%N) (lit "- ")
  /\ Forall (fun c => c <> 10%N) (lit " (Price: ")
  /\ Forall (fun c => c <> 10%N) (lit "N/A")
  /\ Forall (fun c => c <> 10%N) (lit ", Link: ")
  /\ Forall (fun c => c <> 10%N) (lit "#")
  /\ Forall (fun c => c <> 10%N) (lit ")").
Proof. repeat split; repeat (constructor; [discriminate|]); constructor. Qed.

Lemma detailLine_no_lf (prices links : list JsString) (index : nat)
      (name : JsString) :
  Forall (Forall (fun c => c <> 10%N)) prices ->
  Forall (Forall (fun c => c <> 10%N)) links ->
  Forall (fun c => c <> 10%N) name ->
  Forall (fun c => c <> 10%N) (CategoryOptimizer.detailLine prices links index name).
Proof.
  intros Hp Hl Hn. destruct lit_no_lf_detail as (L1 & L2 & L3 & L4 & L5 & L6).
  unfold CategoryOptimizer.detailLine.
  repeat (apply Forall_app; split); trivial.
  - now apply trim_Forall.
  - apply orElse_Forall; [|exact L3]. intros s. now apply nth_piece_Forall.
  - apply orElse_Forall; [|exact L5]. intros s. now apply nth_piece_Forall.
Qed.

Lemma mapi_Forall {A B : Type} (P : A -> Prop) (Q : B -> Prop)
      (f : nat -> A -> B) (index : nat) (l : list A) :
  (forall i x, P x -> Q (f i x)) -> Forall P l ->
  Forall Q (CategoryOptimizer.mapi f index l).
Proof.
  intros Hf H. revert index. induction H as [|x rest Hx Hrest IH]; intros index.
  - constructor.
  - cbn. constructor; auto.
Qed.

Lemma mapi_as_map {A B : Type} (f : nat -> A -> B) (g : A -> B)
      (index : nat) (l : list A) :
  (forall i x, f i x = g x) -> CategoryOptimizer.mapi f index l = map g l.
Proof.
  intros Hf. revert index. induction l as [|x rest IH]; intros index; cbn.
  - reflexivity.
  - now rewrite Hf, IH.
Qed.

Lemma no_lf_weaken (l : list JsString) :
  Forall (Forall (fun c => True /\ c <> 10%N)) l ->
  Forall (Forall (fun c => c <> 10%N)) l.
Proof.
  intros H. eapply Forall_impl; [|exact H].
  intros s Hs. eapply Forall_impl; [|exact Hs]. now intros c [_ Hc].
Qed.

Lemma all_true (s : JsString) : Forall (fun _ : N => True) s.
Proof. induction s; constructor; trivial. Qed.

Lemma productDetails_split (form : CategoryOptimizer.State) :
  Js.split_lf (CategoryOptimizer.productDetails form)
  = CategoryOptimizer.mapi
      (CategoryOptimizer.detailLine
         (Js.split_lf (CategoryOptimizer.productPrices form))
         (Js.split_lf (CategoryOptimizer.productLinks form)))
      0 (Js.split_lf (CategoryOptimizer.productNames form)).
Proof.
  unfold CategoryOptimizer.productDetails. apply split_join.
  - pose proof (split_lf_not_nil (CategoryOptimizer.productNames form)) as Hne.
    destruct (Js.split_lf (CategoryOptimizer.productNames form));
      [contradiction | discriminate].
  - apply (mapi_Forall (Forall (fun c => c <> 10%N))).
    + intros i x Hx. apply detailLine_no_lf; trivial;
        apply no_lf_weaken, split_lf_chars, all_true.
    + apply no_lf_weaken, split_lf_chars, all_true.
Qed.

Lemma mapi_length {A B : Type} (f : nat -> A -> B) (index : nat) (l : list A) :
  List.length (CategoryOptimizer.mapi f index l) = List.length l.
Proof.
  revert index. induction l as [|x rest IH]; intros index; cbn;
    [reflexivity | now rewrite IH].
Qed.

(** X10. The product list sent to the generator has exactly one line per
    line of the product names field, blank lines included, in order: split at
    its line feeds it is the list of the detail lines, and their number is one
    more than the number of line feeds in the names. *)
Theorem productDetails_one_line_per_name (form : CategoryOptimizer.State) :
  Js.split_lf (CategoryOptimizer.productDetails form)
  = CategoryOptimizer.mapi
      (CategoryOptimizer.detailLine
         (Js.split_lf (CategoryOptimizer.productPrices form))
         (Js.split_lf (CategoryOptimizer.productLinks form)))
      0 (Js.split_lf (CategoryOptimizer.productNames form))
  /\ List.length (Js.split_lf (CategoryOptimizer.productDetails form))
     = S (countIf (fun c => (c =? 10)%N) (CategoryOptimizer.productNames form)).
Proof.
  split; [apply productDetails_split|].
  now rewrite productDetails_split, mapi_length, split_lf_length.
Qed.

Lemma blank_pieces_default (pieces : list JsString) (index : nat) (d : JsString) :
  Forall whitespaceOnly pieces ->
  Js.orElse (Js.optTrim (nth_error pieces index)) d = d.
Proof.
  intros H. unfold Js.orElse, Js.optTrim.
  destruct (nth_error pieces index) as [p|] eqn:Hn; [|reflexivity]. cbn.
  rewrite Forall_forall in H. specialize (H p (nth_error_In _ _ Hn)).
  apply trim_nil_iff in H. now rewrite H.
Qed.

Lemma whitespaceOnly_pieces (s : JsString) :
  whitespaceOnly s -> Forall whitespaceOnly (Js.split_lf s).
Proof.
  intros H. apply (split_lf_chars _ s) in H.
  eapply Forall_impl; [|exact H]. intros p Hp. unfold whitespaceOnly.
  eapply Forall_impl; [|exact Hp]. now intros c [Hc _].
Qed.

(** X11. When the prices field and the links field are left empty (or hold
    white space only), every product line carries the two defaults: a dash,
    the trimmed name, then the price N/A and the link #. *)
Theorem blank_prices_and_links_default (form : CategoryOptimizer.State) :
  whitespaceOnly (CategoryOptimizer.productPrices form) ->
  whitespaceOnly (CategoryOptimizer.productLinks form) ->
  Js.split_lf (CategoryOptimizer.productDetails form)
  = map (fun name => lit "- " ++ Js.trim name ++ lit " (Price: N/A, Link: #)")
        (Js.split_lf (CategoryOptimizer.productNames form)).
Proof.
  intros Hp Hl.
  rewrite productDetails_split.
  apply mapi_as_map. intros i name. unfold CategoryOptimizer.detailLine.
  rewrite !blank_pieces_default by now apply whitespaceOnly_pieces.
  reflexivity.
Qed.

Lemma blank_prices_and_links_default_witness :
  Js.split_lf (CategoryOptimizer.productDetails filledCategoryForm)
  = map (fun name => lit "- " ++ Js.trim name ++ lit " (Price: N/A, Link: #)")
        (Js.split_lf (CategoryOptimizer.productNames filledCategoryForm)).
Proof.
  apply (blank_prices_and_links_default filledCategoryForm).
  - constructor.
  - repeat constructor.
Defined.

Example filledCategoryForm_details :
  Js.split_lf (CategoryOptimizer.productDetails filledCategoryForm)
  = [lit "- Chamomile (Price: N/A, Link: #)";
     lit "-  (Price: N/A, Link: #)";
     lit "- Mint (Price: N/A, Link: #)"].
Proof. vm_compute. reflexivity. Qed.

(** ** Markdown to HTML *)

Lemma splitLines_cons (c : N) (t : JsString) :
  OutputBlock.splitLines (c :: t) =
    if OutputBlock.isLineTerminator c
    then ([], (c, fst (OutputBlock.splitLines t)) :: snd (OutputBlock.splitLines t))
    else (c :: fst (OutputBlock.splitLines t), snd (OutputBlock.splitLines t)).
Proof.
  cbn [OutputBlock.splitLines]. now destruct (OutputBlock.splitLines t).
Qed.

(** Lines put back together are the text. *)
Lemma joinLines_splitLines (s : JsString) :
  OutputBlock.joinLines (OutputBlock.splitLines s) = s.
Proof.
  induction s as [|c t IH]; [reflexivity|].
  rewrite splitLines_cons. unfold OutputBlock.joinLines in *.
  destruct (OutputBlock.isLineTerminator c); cbn; now rewrite IH.
Qed.

Lemma splitLines_at_terminator (a b : JsString) (c : N) :
  OutputBlock.isLineTerminator c = true ->
  OutputBlock.splitLines (a ++ c :: b)
  = (fst (OutputBlock.splitLines a),
     snd (OutputBlock.splitLines a)
     ++ (c, fst (OutputBlock.splitLines b)) :: snd (OutputBlock.splitLines b)).
Proof.
  intros Hc. induction a as [|x a' IH].
  - cbn [List.app]. rewrite splitLines_cons, Hc. reflexivity.
  - cbn [List.app]. rewrite !splitLines_cons, IH.
    destruct (OutputBlock.isLineTerminator x); reflexivity.
Qed.

Lemma splitLines_one_line (s : JsString) :
  Forall (fun c => OutputBlock.isLineTerminator c = false) s ->
  OutputBlock.splitLines s = (s, []).
Proof.
  induction 1 as [|c t Hc Ht IH]; [reflexivity|].
  now rewrite splitLines_cons, Hc, IH.
Qed.

Lemma splitLines_Forall (P : N -> Prop) (s : JsString) :
  Forall P s ->
  Forall P (fst (OutputBlock.splitLines s))
  /\ Forall (fun p => Forall P (snd p)) (snd (OutputBlock.splitLines s)).
Proof.
  induction 1 as [|c t Hc Ht [IH1 IH2]]; [split; constructor|].
  rewrite splitLines_cons. destruct (OutputBlock.isLineTerminator c); cbn.
  - split; [constructor | now constructor].
  - split; [now constructor | assumption].
Qed.

Section Headings.

Variables prefix opener closer : JsString.

Lemma replaceHeadings_at_terminator (a b : JsString) (c : N) :
  OutputBlock.isLineTerminator c = true ->
  OutputBlock.replaceHeadings prefix opener closer (a ++ c :: b)
  = OutputBlock.replaceHeadings prefix opener closer a
    ++ c :: OutputBlock.replaceHeadings prefix opener closer b.
Proof.
  intros Hc. unfold OutputBlock.replaceHeadings, OutputBlock.joinLines.
  rewrite (splitLines_at_terminator a b c Hc). cbn [fst snd].
  rewrite map_app, flat_map_app. cbn [map flat_map fst snd].
  now rewrite <- !app_assoc.
Qed.

(** Where no line starts with the prefix, nothing is replaced. *)
Lemma replaceHeadings_unchanged (s : JsString) (P : N -> Prop) :
  (forall line, Forall P line ->
     OutputBlock.replaceHeading prefix opener closer line = line) ->
  Forall P s ->
  OutputBlock.replaceHeadings prefix opener closer s = s.
Proof.
  intros Hid Hs. destruct (splitLines_Forall P s Hs) as [H1 H2].
  rewrite <- (joinLines_splitLines s) at 2.
  unfold OutputBlock.replaceHeadings, OutputBlock.joinLines. cbn [fst snd].
  rewrite (Hid _ H1). f_equal.
  induction H2 as [|p rest Hp Hrest IH]; [reflexivity|].
  cbn [map flat_map fst snd].
  f_equal; [f_equal; apply Hid, Hp | exact IH].
Qed.

End Headings.

Lemma replaceHeading_no_match (prefix opener closer line : JsString) (p : N) :
  Forall (fun c => c <> p) line ->
  OutputBlock.replaceHeading (p :: prefix) opener closer line = line.
Proof.
  intros H. unfold OutputBlock.replaceHeading.
  destruct H as [|c t Hc Ht]; [reflexivity|].
  cbn. destruct (N.eqb_spec p c); [congruence | reflexivity].
Qed.

Lemma replaceBold_outside (c : N) (t : JsString) :
  OutputBlock.replaceBold None (c :: t) =
    if asteriskPair c t then OutputBlock.replaceBold (Some []) (tl t)
    else c :: OutputBlock.replaceBold None t.
Proof. destruct t; reflexivity. Qed.

Lemma replaceBold_inside (inner : JsString) (c : N) (t : JsString) :
  OutputBlock.replaceBold (Some inner) (c :: t) =
    if asteriskPair c t
    then OutputBlock.strongOpen ++ inner ++ OutputBlock.strongClose
         ++ OutputBlock.replaceBold None (tl t)
    else if OutputBlock.isLineTerminator c
         then [42; 42]%N ++ inner ++ c :: OutputBlock.replaceBold None t
         else OutputBlock.replaceBold (Some (inner ++ [c])) t.
Proof. destruct t; reflexivity. Qed.

Lemma asteriskPair_first (c : N) (t : JsString) :
  c <> 42%N -> asteriskPair c t = false.
Proof.
  intros Hc. destruct t; [reflexivity|]. cbn.
  destruct (N.eqb_spec c 42); [contradiction | reflexivity].
Qed.

Lemma asteriskPair_before_lf (c : N) (a b : JsString) :
  asteriskPair c (a ++ 10%N :: b) = asteriskPair c a.
Proof.
  destruct a; [|reflexivity]. cbn. apply andb_false_r.
Qed.

Lemma asteriskPair_tail (c : N) (a b : JsString) :
  asteriskPair c a = true -> tl (a ++ b) = tl a ++ b.
Proof. destruct a; [discriminate | reflexivity]. Qed.

(** A pair of asterisks and its text are read within one line: at a line
    feed the scan is outside again, whatever it was reading. *)
Lemma replaceBold_at_lf (a b : JsString) :
  forall pending,
    OutputBlock.replaceBold pending (a ++ 10%N :: b)
    = OutputBlock.replaceBold pending a
      ++ 10%N :: OutputBlock.replaceBold None b.
Proof.
  remember (List.length a) as n eqn:Hn.
  revert a Hn. induction n as [n IH] using lt_wf_ind. intros a Hn pending.
  destruct a as [|c a'].
  - cbn [List.app]. destruct pending as [inner|].
    + rewrite replaceBold_inside, (asteriskPair_first 10 b) by discriminate.
      cbn. reflexivity.
    + rewrite replaceBold_outside, (asteriskPair_first 10 b) by discriminate.
      reflexivity.
  - cbn [List.app]. simpl List.length in Hn.
    assert (IHa : forall p, OutputBlock.replaceBold p (a' ++ 10%N :: b)
                = OutputBlock.replaceBold p a'
                  ++ 10%N :: OutputBlock.replaceBold None b).
    { apply (IH (List.length a')); [lia | reflexivity]. }
    assert (IHt : asteriskPair c a' = true ->
                forall p, OutputBlock.replaceBold p (tl a' ++ 10%N :: b)
                = OutputBlock.replaceBold p (tl a')
                  ++ 10%N :: OutputBlock.replaceBold None b).
    { intros Hpair. apply (IH (List.length (tl a'))); [|reflexivity].
      destruct a'; [discriminate | cbn in *; lia]. }
    destruct pending as [inner|].
    + rewrite !replaceBold_inside, asteriskPair_before_lf.
      destruct (asteriskPair c a') eqn:Hpair.
      * rewrite (asteriskPair_tail c a' _ Hpair), (IHt eq_refl).
        now rewrite <- !app_assoc.
      * destruct (OutputBlock.isLineTerminator c); rewrite IHa;
          [|reflexivity].
        cbn. now rewrite <- !app_assoc.
    + rewrite !replaceBold_outside, asteriskPair_before_lf.
      destruct (asteriskPair c a') eqn:Hpair.
      * now rewrite (asteriskPair_tail c a' _ Hpair), (IHt eq_refl).
      * now rewrite IHa.
Qed.

Lemma replaceLineFeeds_app (a b : JsString) :
  OutputBlock.replaceLineFeeds (a ++ b)
  = OutputBlock.replaceLineFeeds a ++ OutputBlock.replaceLineFeeds b.
Proof.
  induction a as [|c t IH]; [reflexivity|].
  cbn [List.app OutputBlock.replaceLineFeeds]. rewrite IH.
  destruct (c =? 10)%N; [now rewrite <- app_assoc | reflexivity].
Qed.

(** X12. The conversion works line by line: a text with a line feed in it
    becomes the conversion of what is before, a break tag, and the conversion
    of what is after.  Headings and bold text therefore never reach across a
    line feed. *)
Theorem simpleMarkdownToHtml_line_by_line (a b : JsString) :
  OutputBlock.simpleMarkdownToHtml (a ++ 10%N :: b)
  = OutputBlock.simpleMarkdownToHtml a ++ lit "<br />"
    ++ OutputBlock.simpleMarkdownToHtml b.
Proof.
  unfold OutputBlock.simpleMarkdownToHtml.
  rewrite !replaceHeadings_at_terminator by reflexivity.
  rewrite replaceBold_at_lf, replaceLineFeeds_app. reflexivity.
Qed.

Lemma replaceLineFeeds_no_lf (s : JsString) :
  Forall (fun c => c <> 10%N) (OutputBlock.replaceLineFeeds s).
Proof.
  induction s as [|c t IH]; [constructor|].
  cbn [OutputBlock.replaceLineFeeds]. destruct (N.eqb_spec c 10).
  - apply Forall_app. split; [|exact IH].
    repeat (constructor; [discriminate|]). constructor.
  - now constructor.
Qed.

(** X13. The HTML that comes out has no line feed left in it. *)
Theorem simpleMarkdownToHtml_no_line_feed (markdown : JsString) :
  Forall (fun c => c <> 10%N) (OutputBlock.simpleMarkdownToHtml markdown).
Proof. apply replaceLineFeeds_no_lf. Qed.

Lemma replaceLineFeeds_unchanged (s : JsString) :
  Forall (fun c => c <> 10%N) s -> OutputBlock.replaceLineFeeds s = s.
Proof.
  induction 1 as [|c t Hc Ht IH]; [reflexivity|].
  cbn [OutputBlock.replaceLineFeeds]. rewrite IH.
  destruct (N.eqb_spec c 10); [contradiction | reflexivity].
Qed.

Lemma replaceBold_unchanged (s : JsString) :
  Forall (fun c => c <> 42%N) s -> OutputBlock.replaceBold None s = s.
Proof.
  induction 1 as [|c t Hc Ht IH]; [reflexivity|].
  now rewrite replaceBold_outside, (asteriskPair_first c t Hc), IH.
Qed.

(** X14. Nothing is escaped: a text without line feed, hash sign and
    asterisk comes out exactly as it went in, HTML markup included. *)
Theorem simpleMarkdownToHtml_plain_text (markdown : JsString) :
  plainText markdown ->
  OutputBlock.simpleMarkdownToHtml markdown = markdown.
Proof.
  intros H. unfold plainText in H.
  assert (Hhash : Forall (fun c => c <> 35%N) markdown)
    by (eapply Forall_impl; [|exact H]; now intros c (_ & Hc & _)).
  assert (Hstar : Forall (fun c => c <> 42%N) markdown)
    by (eapply Forall_impl; [|exact H]; now intros c (_ & _ & Hc)).
  assert (Hlf : Forall (fun c => c <> 10%N) markdown)
    by (eapply Forall_impl; [|exact H]; now intros c (Hc & _)).
  unfold OutputBlock.simpleMarkdownToHtml.
  change (lit "## ") with (35%N :: lit "# ").
  change (lit "### ") with (35%N :: lit "## ").
  rewrite !(replaceHeadings_unchanged _ _ _ markdown (fun c => c <> 35%N))
    by (trivial; intros line Hl; now apply replaceHeading_no_match).
  now rewrite replaceBold_unchanged, replaceLineFeeds_unchanged.
Qed.

Lemma simpleMarkdownToHtml_plain_text_witness :
  OutputBlock.simpleMarkdownToHtml (lit "<u>Tea</u> & more")
  = lit "<u>Tea</u> & more".
Proof.
  apply (simpleMarkdownToHtml_plain_text (lit "<u>Tea</u> & more")).
  repeat (constructor; [repeat split; discriminate|]). constructor.
Defined.

Lemma replaceHeadings_one_line (prefix opener closer s : JsString) :
  Forall (fun c => OutputBlock.isLineTerminator c = false) s ->
  OutputBlock.replaceHeadings prefix opener closer s
  = OutputBlock.replaceHeading prefix opener closer s.
Proof.
  intros H. unfold OutputBlock.replaceHeadings, OutputBlock.joinLines.
  rewrite (splitLines_one_line s H). cbn [fst snd map flat_map].
  apply app_nil_r.
Qed.

Lemma plainLine_one_line (s : JsString) :
  plainLine s -> Forall (fun c => OutputBlock.isLineTerminator c = false) s.
Proof. intros H. eapply Forall_impl; [|exact H]. now intros c [Hc _]. Qed.

Lemma plainLine_no_star (s : JsString) :
  plainLine s -> Forall (fun c => c <> 42%N) s.
Proof. intros H. eapply Forall_impl; [|exact H]. now intros c [_ Hc]. Qed.

Lemma plainLine_no_lf (s : JsString) :
  plainLine s -> Forall (fun c => c <> 10%N) s.
Proof.
  intros H. eapply Forall_impl; [|exact H]. intros c [Hc _] ->. discriminate Hc.
Qed.

Lemma plainLine_app (a b : JsString) :
  plainLine a -> plainLine b -> plainLine (a ++ b).
Proof. intros Ha Hb. apply Forall_app. now split. Qed.

(** A line with no asterisk goes through the last two replacements as it
    is. *)
Lemma plainLine_bold_and_breaks (y : JsString) :
  plainLine y ->
  OutputBlock.replaceLineFeeds (OutputBlock.replaceBold None y) = y.
Proof.
  intros H. rewrite (replaceBold_unchanged y (plainLine_no_star y H)).
  apply replaceLineFeeds_unchanged, plainLine_no_lf, H.
Qed.

(** X15. A line that starts with two hash signs and a space becomes a
    second-level heading holding the rest of the line, and a line that starts
    with three hash signs and a space a third-level heading, when the rest of
    the line has no asterisk. *)
Theorem simpleMarkdownToHtml_headings (text : JsString) :
  plainLine text ->
  OutputBlock.simpleMarkdownToHtml (lit "## " ++ text)
  = OutputBlock.h2Open ++ text ++ OutputBlock.h2Close
  /\ OutputBlock.simpleMarkdownToHtml (lit "### " ++ text)
     = OutputBlock.h3Open ++ text ++ OutputBlock.h3Close.
Proof.
  intros H. unfold OutputBlock.simpleMarkdownToHtml. split.
  - rewrite (replaceHeadings_one_line _ _ _ (lit "## " ++ text))
      by (apply plainLine_one_line, plainLine_app; [plain_literal | exact H]).
    change (OutputBlock.replaceHeading (lit "## ") OutputBlock.h2Open
              OutputBlock.h2Close (lit "## " ++ text))
      with (OutputBlock.h2Open ++ text ++ OutputBlock.h2Close).
    assert (Hy : plainLine (OutputBlock.h2Open ++ text ++ OutputBlock.h2Close))
      by (repeat apply plainLine_app; trivial; plain_literal).
    rewrite (replaceHeadings_one_line _ _ _ _ (plainLine_one_line _ Hy)).
    change (OutputBlock.replaceHeading (lit "### ") OutputBlock.h3Open
              OutputBlock.h3Close
              (OutputBlock.h2Open ++ text ++ OutputBlock.h2Close))
      with (OutputBlock.h2Open ++ text ++ OutputBlock.h2Close).
    now apply plainLine_bold_and_breaks.
  - rewrite (replaceHeadings_one_line _ _ _ (lit "### " ++ text))
      by (apply plainLine_one_line, plainLine_app; [plain_literal | exact H]).
    change (OutputBlock.replaceHeading (lit "## ") OutputBlock.h2Open
              OutputBlock.h2Close (lit "### " ++ text))
      with (lit "### " ++ text).
    rewrite (replaceHeadings_one_line _ _ _ (lit "### " ++ text))
      by (apply plainLine_one_line, plainLine_app; [plain_literal | exact H]).
    change (OutputBlock.replaceHeading (lit "### ") OutputBlock.h3Open
              OutputBlock.h3Close (lit "### " ++ text))
      with (OutputBlock.h3Open ++ text ++ OutputBlock.h3Close).
    apply plainLine_bold_and_breaks.
    repeat apply plainLine_app; trivial; plain_literal.
Qed.

Lemma simpleMarkdownToHtml_headings_witness :
  OutputBlock.simpleMarkdownToHtml (lit "## " ++ lit "Key Benefits")
  = OutputBlock.h2Open ++ lit "Key Benefits" ++ OutputBlock.h2Close.
Proof.
  refine (proj1 (simpleMarkdownToHtml_headings (lit "Key Benefits") _)).
  plain_literal.
Defined.

Lemma replaceBold_closes (text rest : JsString) :
  plainLine text ->
  forall inner,
    OutputBlock.replaceBold (Some inner) (text ++ 42%N :: 42%N :: rest)
    = OutputBlock.strongOpen ++ (inner ++ text) ++ OutputBlock.strongClose
      ++ OutputBlock.replaceBold None rest.
Proof.
  induction 1 as [|c t [Hc1 Hc2] Ht IH]; intros inner.
  - cbn [List.app]. rewrite replaceBold_inside. cbn [asteriskPair tl].
    cbn [N.eqb Pos.eqb andb]. now rewrite app_nil_r.
  - cbn [List.app]. rewrite replaceBold_inside, asteriskPair_first, Hc1, IH
      by assumption.
    now rewrite <- !app_assoc.
Qed.

Lemma replaceBold_unclosed (text : JsString) :
  plainLine text ->
  forall inner,
    OutputBlock.replaceBold (Some inner) text = [42; 42]%N ++ inner ++ text.
Proof.
  induction 1 as [|c t [Hc1 Hc2] Ht IH]; intros inner.
  - cbn [OutputBlock.replaceBold]. now rewrite app_nil_r.
  - rewrite replaceBold_inside, asteriskPair_first, Hc1, IH by assumption.
    now rewrite <- !app_assoc.
Qed.

(** X16. Text between two pairs of asterisks on one line comes out between
    strong tags; an opening pair with no closing pair on its line is left as
    typed. *)
Theorem simpleMarkdownToHtml_bold (text : JsString) :
  plainLine text ->
  OutputBlock.simpleMarkdownToHtml (lit "**" ++ text ++ lit "**")
  = OutputBlock.strongOpen ++ text ++ OutputBlock.strongClose
  /\ OutputBlock.simpleMarkdownToHtml (lit "**" ++ text) = lit "**" ++ text.
Proof.
  intros H. unfold OutputBlock.simpleMarkdownToHtml.
  assert (One : forall tail, Forall (fun c => OutputBlock.isLineTerminator c = false) tail ->
    OutputBlock.replaceHeadings (lit "### ") OutputBlock.h3Open OutputBlock.h3Close
      (OutputBlock.replaceHeadings (lit "## ") OutputBlock.h2Open
         OutputBlock.h2Close (lit "**" ++ tail))
    = lit "**" ++ tail).
  { intros tail Ht.
    assert (Hl : Forall (fun c => OutputBlock.isLineTerminator c = false)
                   (lit "**" ++ tail))
      by (apply Forall_app; split; [repeat constructor | exact Ht]).
    rewrite (replaceHeadings_one_line _ _ _ _ Hl).
    change (OutputBlock.replaceHeading (lit "## ") OutputBlock.h2Open
              OutputBlock.h2Close (lit "**" ++ tail))
      with (lit "**" ++ tail).
    now rewrite (replaceHeadings_one_line _ _ _ _ Hl). }
  split.
  - rewrite One
      by (apply Forall_app; split;
          [apply plainLine_one_line, H | repeat constructor]).
    change (lit "**" ++ text ++ lit "**")
      with (42%N :: 42%N :: text ++ 42%N :: 42%N :: []).
    rewrite replaceBold_outside. cbn [asteriskPair N.eqb Pos.eqb andb tl].
    rewrite (replaceBold_closes text [] H). cbn [List.app].
    cbn [OutputBlock.replaceBold]. rewrite app_nil_r.
    apply replaceLineFeeds_unchanged, plainLine_no_lf.
    repeat apply plainLine_app; trivial; plain_literal.
  - rewrite One by (apply plainLine_one_line, H).
    change (lit "**" ++ text) with (42%N :: 42%N :: text).
    rewrite replaceBold_outside. cbn [asteriskPair N.eqb Pos.eqb andb tl].
    rewrite (replaceBold_unclosed text H). cbn [List.app].
    apply replaceLineFeeds_unchanged.
    constructor; [discriminate|]. constructor; [discriminate|].
    apply plainLine_no_lf, H.
Qed.

Lemma simpleMarkdownToHtml_bold_witness :
  OutputBlock.simpleMarkdownToHtml (lit "**" ++ lit "vegan" ++ lit "**")
  = OutputBlock.strongOpen ++ lit "vegan" ++ OutputBlock.strongClose.
Proof.
  refine (proj1 (simpleMarkdownToHtml_bold (lit "vegan") _)).
  plain_literal.
Defined.

(** ** Sessions of src/App.tsx *)

Lemma forget_copy_timers (l : list (TimerCallback * Z)) :
  Forall (fun t => fst t = hideCopyMessage) l ->
  flat_map (fun t => match fst t with
                     | hideCopyMessage => [snd t]
                     | hidePaymentSuccessMessage => []
                     end) l
  = map snd l.
Proof.
  induction 1 as [|t rest Ht Hrest IH]; [reflexivity|].
  cbn [flat_map map]. now rewrite Ht, IH.
Qed.

Lemma Forall_remove_nth {A : Type} (P : A -> Prop) (l : list A) (index : nat) :
  Forall P l -> Forall P (firstn index l ++ skipn (S index) l).
Proof.
  intros H. rewrite Forall_forall in *. intros x Hin. apply H.
  apply in_app_or in Hin as [Hin | Hin].
  - rewrite <- (firstn_skipn index l). apply in_or_app. now left.
  - rewrite <- (firstn_skipn (S index) l). apply in_or_app. now right.
Qed.

Lemma forget_attempt (w : World) :
  isPremium (app w) = false ->
  forget (snd (attemptGeneration w)) = snd (AppTsx.attemptGeneration (forget w))
  /\ timers (snd (attemptGeneration w)) = timers w
  /\ isPremium (app (snd (attemptGeneration w))) = false.
Proof.
  intros Hp.
  unfold attemptGeneration, dispatch, App.handleGenerationAttempt,
    AppTsx.attemptGeneration, AppTsx.handleGenerationAttempt.
  rewrite Hp. cbn [forget AppTsx.app AppTsx.generationCount].
  destruct (generationCount (app w) >=? GENERATION_LIMIT);
    repeat split; exact Hp.
Qed.

Lemma forget_step (e : AppTsxSession.Event) (w : World) :
  freeWorld w ->
  forget (step (inFullApp e) w) = AppTsxSession.step e (forget w)
  /\ freeWorld (step (inFullApp e) w).
Proof.
  intros [Hp Ht]. destruct e; cbn [inFullApp step AppTsxSession.step].
  - split; [reflexivity | now split].
  - split; [reflexivity | now split].
  - destruct (forget_attempt w Hp) as (E & Et & Ep).
    split; [exact E|]. split; [exact Ep | now rewrite Et].
  - split.
    + unfold forget. cbn. rewrite flat_map_app. reflexivity.
    + split; [exact Hp|]. cbn. apply Forall_app. split; [exact Ht|].
      now repeat constructor.
  - split; [reflexivity | now split].
  - unfold fireTimer, AppTsxSession.fireTimer.
    assert (En : nth_error (AppTsx.timers (forget w)) index
                 = option_map snd (nth_error (timers w) index)).
    { cbn [forget AppTsx.timers]. rewrite (forget_copy_timers _ Ht).
      apply nth_error_map. }
    rewrite En.
    destruct (nth_error (timers w) index) as [[cb ms]|] eqn:Hn;
      cbn [option_map]; [|split; [reflexivity | now split]].
    assert (Hcb : cb = hideCopyMessage).
    { rewrite Forall_forall in Ht. apply (Ht (cb, ms)).
      eapply nth_error_In, Hn. }
    subst cb. pose proof (Forall_remove_nth _ _ index Ht) as Ht'.
    split.
    + unfold forget, AppTsx.setShowCopyMessage, AppTsx.onApp, App.runTimer,
        App.setShowCopyMessage, App.onApp, modify.
      cbn [fst snd app timers console AppTsx.app AppTsx.timers currentPage
           initialTab generationCount showPaywall showCopyMessage
           AppTsx.currentPage AppTsx.initialTab AppTsx.generationCount
           AppTsx.showPaywall AppTsx.showCopyMessage].
      f_equal.
      rewrite (forget_copy_timers _ Ht'), (forget_copy_timers _ Ht).
      now rewrite map_app, firstn_map, skipn_map.
    + split; [exact Hp | exact Ht'].
Qed.

(** X17. Without the payment path the full application is the component of
    src/App.tsx: over any sequence of the events the two have in common (logo,
    home-page buttons, attempts, copies, closing the modal, timers), started
    fresh, the shared cells and the pending timers are the same at the end. *)
Theorem session_agrees_with_AppTsx (events : list AppTsxSession.Event) :
  forget (run (map inFullApp events) initialWorld)
  = AppTsxSession.run events AppTsx.initialWorld.
Proof.
  assert (R : forall w, freeWorld w ->
    forget (run (map inFullApp events) w) = AppTsxSession.run events (forget w)).
  { induction events as [|e rest IH]; intros w Hw; [reflexivity|].
    cbn [map]. rewrite run_cons.
    destruct (forget_step e w Hw) as [E Hw'].
    rewrite (IH _ Hw'), E. reflexivity. }
  apply (R initialWorld). split; [reflexivity | constructor].
Qed.

Lemma AppTsx_step_locked (e : AppTsxSession.Event) (w : AppTsx.World) :
  GENERATION_LIMIT <= AppTsx.generationCount (AppTsx.app w) ->
  AppTsx.generationCount (AppTsx.app (AppTsxSession.step e w))
  = AppTsx.generationCount (AppTsx.app w).
Proof.
  intros Hc. destruct e; cbn [AppTsxSession.step]; try reflexivity.
  - unfold AppTsx.attemptGeneration, AppTsx.handleGenerationAttempt.
    destruct (Z.geb_spec (AppTsx.generationCount (AppTsx.app w)) GENERATION_LIMIT);
      [reflexivity | lia].
  - unfold AppTsxSession.fireTimer.
    destruct (nth_error (AppTsx.timers w) index); reflexivity.
Qed.

(** X18. In the component of src/App.tsx nothing unlocks the gate: once the
    counter has reached the limit it stays where it is, and every later
    attempt is refused, whatever happens in between. *)
Theorem AppTsx_locked_for_good (events : list AppTsxSession.Event)
    (w : AppTsx.World) :
  GENERATION_LIMIT <= AppTsx.generationCount (AppTsx.app w) ->
  AppTsx.generationCount (AppTsx.app (AppTsxSession.run events w))
  = AppTsx.generationCount (AppTsx.app w)
  /\ fst (AppTsx.attemptGeneration (AppTsxSession.run events w)) = false.
Proof.
  intros Hc.
  assert (E : AppTsx.generationCount (AppTsx.app (AppTsxSession.run events w))
              = AppTsx.generationCount (AppTsx.app w)).
  { revert w Hc. induction events as [|e rest IH]; intros w Hc; [reflexivity|].
    change (AppTsxSession.run (e :: rest) w)
      with (AppTsxSession.run rest (AppTsxSession.step e w)).
    pose proof (AppTsx_step_locked e w Hc) as Es.
    rewrite IH; [exact Es | now rewrite Es]. }
  split; [exact E|].
  unfold AppTsx.attemptGeneration, AppTsx.handleGenerationAttempt.
  rewrite E.
  destruct (Z.geb_spec (AppTsx.generationCount (AppTsx.app w)) GENERATION_LIMIT);
    [reflexivity | lia].
Qed.

Lemma AppTsx_locked_for_good_witness :
  fst (AppTsx.attemptGeneration
         (AppTsxSession.run
            [AppTsxSession.PaywallClose; AppTsxSession.LogoClick;
             AppTsxSession.Optimize category; AppTsxSession.GenerationAttempt]
            (forget exhausted))) = false.
Proof.
  refine (proj2 (AppTsx_locked_for_good
            [AppTsxSession.PaywallClose; AppTsxSession.LogoClick;
             AppTsxSession.Optimize category; AppTsxSession.GenerationAttempt]
            (forget exhausted) _)).
  vm_compute. discriminate.
Defined.

(** ** The FAQ block *)

Lemma join_app (sep : JsString) (l1 l2 : list JsString) :
  l1 <> [] -> l2 <> [] ->
  Js.join sep (l1 ++ l2) = Js.join sep l1 ++ sep ++ Js.join sep l2.
Proof.
  intros H1 H2. induction l1 as [|x rest IH]; [contradiction|].
  destruct rest as [|y rest'].
  - destruct l2 as [|z l2']; [contradiction | reflexivity].
  - change (Js.join sep ((x :: y :: rest') ++ l2))
      with (x ++ sep ++ Js.join sep ((y :: rest') ++ l2)).
    rewrite IH by discriminate.
    change (Js.join sep (x :: y :: rest'))
      with (x ++ sep ++ Js.join sep (y :: rest')).
    now rewrite <- !app_assoc.
Qed.

(** X19. The FAQ text is the entries, each a question line and an answer
    line, with one empty line between two entries and nothing after the last:
    the text for two lists of entries put together is the two texts with one
    empty line between them. *)
Theorem formatFaqs_app (faqs more : list Faq) :
  faqs <> [] -> more <> [] ->
  formatFaqs (faqs ++ more)
  = formatFaqs faqs ++ [10; 10]%N ++ formatFaqs more.
Proof.
  intros H1 H2. unfold formatFaqs. rewrite map_app.
  apply join_app.
  - destruct faqs; [contradiction | discriminate].
  - destruct more; [contradiction | discriminate].
Qed.

Lemma formatFaqs_app_witness :
  formatFaqs ([mkFaq (lit "Is it vegan?") (lit "Yes.")]
              ++ [mkFaq (lit "Is it organic?") (lit "Yes.")])
  = formatFaqs [mkFaq (lit "Is it vegan?") (lit "Yes.")]
    ++ [10; 10]%N ++ formatFaqs [mkFaq (lit "Is it organic?") (lit "Yes.")].
Proof.
  apply (formatFaqs_app [mkFaq (lit "Is it vegan?") (lit "Yes.")]
           [mkFaq (lit "Is it organic?") (lit "Yes.")]); discriminate.
Defined.

(** The conversion on a small text: a heading, bold text inside a line, a
    pair of asterisks that is never closed, and a line with four hash signs,
    which is no heading. *)
Example simpleMarkdownToHtml_sample :
  OutputBlock.simpleMarkdownToHtml
    (lit "## Key" ++ [10] ++ lit "a **b** c **d" ++ [10] ++ lit "#### e")%N
  = (OutputBlock.h2Open ++ lit "Key" ++ OutputBlock.h2Close ++ lit "<br />"
     ++ lit "a " ++ OutputBlock.strongOpen ++ lit "b" ++ OutputBlock.strongClose
     ++ lit " c **d" ++ lit "<br />" ++ lit "#### e")%N.
Proof. vm_compute. reflexivity. Qed.
